(** * URL shortener: a shallow embedding of app/utils.py, app/models.py and
    app/main.py, and the properties of the service proved over it.

    Python [str] values are sequences of Unicode code points, the [urls]
    table of the SQLite database is a list of rows in insertion order, and
    every source of non-determinism of the service (the random generator
    behind [random.choice], the clock behind [CURRENT_TIMESTAMP], the part of
    the Unicode character database that is not tabulated here) is an explicit
    input of the functions that use it. The methods of the store hold its
    lock from the first statement to the last, so a history of the service is
    a sequence of them; the connections they leave open when a statement
    raises, and the run of the garbage collector that closes those, are part
    of the state and of its histories. *)

From Stdlib Require Import ZArith List Bool Lia String Ascii Floats.
Import ListNotations.

Local Open Scope Z_scope.

(* ================================================================= *)
(** ** Python strings *)

Module Py.

(** A code point of a Python [str]. *)
Definition codepoint := Z.

(** A Python [str]: its code points, in order. *)
Definition str := list codepoint.

(** An ASCII literal of the source, as a [str]. *)
Definition lit (s : string) : str :=
  List.map (fun a => Z.of_N (N_of_ascii a)) (list_ascii_of_string s).

Fixpoint str_eqb (a b : str) : bool :=
  match a, b with
  | [], [] => true
  | x :: a', y :: b' => (x =? y) && str_eqb a' b'
  | _, _ => false
  end.

(** [not s] on a [str]: the empty string is falsy. *)
Definition is_empty (s : str) : bool :=
  match s with [] => true | _ :: _ => false end.

(** [s.startswith(p)]. *)
Fixpoint startswith (s p : str) {struct p} : bool :=
  match p, s with
  | [], _ => true
  | _ :: _, [] => false
  | y :: p', x :: s' => (x =? y) && startswith s' p'
  end.

Definition in_range (lo hi c : codepoint) : bool := (lo <=? c) && (c <=? hi).

(** [str.isspace] on one character: the code points CPython lists in
    [_PyUnicode_IsWhitespace] (bidirectional type WS, B or S, or category
    Zs). A bare [str.strip()] and the regular expression class [\s] both use
    it. *)
Definition isspace (c : codepoint) : bool :=
  in_range 0x09 0x0D c || in_range 0x1C 0x20 c || (c =? 0x85) || (c =? 0xA0)
  || (c =? 0x1680) || in_range 0x2000 0x200A c || (c =? 0x2028)
  || (c =? 0x2029) || (c =? 0x202F) || (c =? 0x205F) || (c =? 0x3000).

(** [s.lstrip()]. *)
Fixpoint lstrip (s : str) : str :=
  match s with
  | [] => []
  | c :: t => if isspace c then lstrip t else s
  end.

(** [s.rstrip()]: the longest prefix that does not end in whitespace. *)
Fixpoint rstrip (s : str) : str :=
  match s with
  | [] => []
  | c :: t =>
      match rstrip t with
      | [] => if isspace c then [] else [c]
      | r => c :: r
      end
  end.

(** [s.strip()]. *)
Definition strip (s : str) : str := rstrip (lstrip s).

Definition is_ascii_digit (c : codepoint) : bool := in_range 48 57 c.
Definition is_ascii_upper (c : codepoint) : bool := in_range 65 90 c.
Definition is_ascii_lower (c : codepoint) : bool := in_range 97 122 c.
Definition is_ascii_alpha (c : codepoint) : bool :=
  is_ascii_upper c || is_ascii_lower c.
Definition is_ascii_alnum (c : codepoint) : bool :=
  is_ascii_alpha c || is_ascii_digit c.

(** The tables of the interpreter the service consults through
    [str.isalnum], the class [\d] and [urlparse], outside the blocks that are
    tabulated below. They are an input of the model: every result stated for
    all tables holds for those of the running interpreter. *)
Record unicode_db := {
  (** [c.isalnum()] for a code point above U+00FF that is not a fullwidth
      digit *)
  ucd_isalnum : codepoint -> bool;
  (** [c.isdecimal()] (category Nd) for a code point above U+007F *)
  ucd_isdecimal : codepoint -> bool;
  (** does [urlparse] raise [ValueError] on this network location; asked
      only for a location with a square bracket (unbalanced, or around a
      host that is not an IP literal) or with a character outside ASCII
      (whose NFKC form brings in one of [/?#@:]) *)
  netloc_rejected : str -> bool
}.

(** [c.isalnum()] on one character: alphabetic, decimal, digit or numeric.
    Basic Latin and the Latin-1 supplement are tabulated (letters, the
    ordinal indicators, the micro sign, the superscript digits and the vulgar
    fractions), and so are the fullwidth digits U+FF10 to U+FF19. *)
Definition isalnum_char (U : unicode_db) (c : codepoint) : bool :=
  if c <? 0x80 then is_ascii_alnum c
  else if c <? 0x100 then
    (c =? 0xAA) || (c =? 0xB2) || (c =? 0xB3) || (c =? 0xB5) || (c =? 0xB9)
    || (c =? 0xBA) || in_range 0xBC 0xBE c || in_range 0xC0 0xD6 c
    || in_range 0xD8 0xF6 c || in_range 0xF8 0xFF c
  else if in_range 0xFF10 0xFF19 c then true
  else ucd_isalnum U c.

(** [s.isalnum()]: every character is alphanumeric and there is at least
    one. *)
Definition isalnum (U : unicode_db) (s : str) : bool :=
  negb (is_empty s) && forallb (isalnum_char U) s.

(** [c.isdecimal()], the class [\d] of a [str] pattern. *)
Definition isdecimal_char (U : unicode_db) (c : codepoint) : bool :=
  if c <? 0x80 then is_ascii_digit c else ucd_isdecimal U c.

(** [len(s)]. *)
Definition len (s : str) : Z := Z.of_nat (List.length s).

End Py.
Import Py.

(* ================================================================= *)
(** ** Regular expressions of the [re] module *)

Module Re.

(** The pattern language [url_pattern] is written in: character classes,
    concatenation, alternation and repetition. The anchors of a pattern are
    handled by [match_anchored]. *)
Inductive regex :=
| Void
| Eps
| Cls (p : codepoint -> bool)
| Seq (a b : regex)
| Alt (a b : regex)
| Star (a : regex).

Fixpoint nullable (r : regex) : bool :=
  match r with
  | Void => false
  | Eps => true
  | Cls _ => false
  | Seq a b => nullable a && nullable b
  | Alt a b => nullable a || nullable b
  | Star _ => true
  end.

(** Concatenation and alternation that drop a dead branch at once. *)
Definition seq (a b : regex) : regex :=
  match a, b with
  | Void, _ => Void
  | _, Void => Void
  | Eps, _ => b
  | _, _ => Seq a b
  end.

Definition alt (a b : regex) : regex :=
  match a, b with
  | Void, _ => b
  | _, Void => a
  | _, _ => Alt a b
  end.

(** What is left of [r] to match once the character [c] has been read. *)
Fixpoint deriv (c : codepoint) (r : regex) : regex :=
  match r with
  | Void => Void
  | Eps => Void
  | Cls p => if p c then Eps else Void
  | Seq a b =>
      if nullable a then alt (seq (deriv c a) b) (deriv c b)
      else seq (deriv c a) b
  | Alt a b => alt (deriv c a) (deriv c b)
  | Star a => seq (deriv c a) (Star a)
  end.

(** [re.fullmatch]: the whole string is a word of [r]. A pattern without
    back-references or look-around matches exactly when one of the choices
    the backtracking matcher of [re] can make succeeds, which is membership
    in the language of the pattern. *)
Fixpoint fullmatch (r : regex) (s : str) : bool :=
  match s with
  | [] => nullable r
  | c :: t => fullmatch (deriv c r) t
  end.

(** The words of a pattern: what [fullmatch] decides (theorem
    [fullmatch_in_lang]). *)
Inductive in_lang : regex -> str -> Prop :=
| in_eps : in_lang Eps []
| in_cls p c : p c = true -> in_lang (Cls p) [c]
| in_seq a b s1 s2 :
    in_lang a s1 -> in_lang b s2 -> in_lang (Seq a b) (s1 ++ s2)
| in_alt_l a b s : in_lang a s -> in_lang (Alt a b) s
| in_alt_r a b s : in_lang b s -> in_lang (Alt a b) s
| in_star_nil a : in_lang (Star a) []
| in_star_app a s1 s2 :
    in_lang a s1 -> in_lang (Star a) s2 -> in_lang (Star a) (s1 ++ s2).

(** [r?], [r+], [r{n}], [r{0,n}] and [r{lo,hi}]. *)
Definition opt (r : regex) : regex := Alt r Eps.
Definition plus (r : regex) : regex := Seq r (Star r).

Fixpoint times (n : nat) (r : regex) : regex :=
  match n with
  | O => Eps
  | S n' => Seq r (times n' r)
  end.

Fixpoint upto (n : nat) (r : regex) : regex :=
  match n with
  | O => Eps
  | S n' => opt (Seq r (upto n' r))
  end.

Definition rep (lo hi : nat) (r : regex) : regex :=
  Seq (times lo r) (upto (hi - lo) r).

(** [re.compile('^' + r + '$').match(s)]: the match starts at the first
    character, and [$] holds at the end of the string and just before a
    newline that ends the string. *)
Definition match_anchored (r : regex) (s : str) : bool :=
  fullmatch r s
  || match rev s with
     | 10 :: t => fullmatch r (rev t)
     | _ => false
     end.

(** Case folding under [re.IGNORECASE] for a [str] pattern, at the code
    points that fold onto an ASCII letter: the 26 capitals and the four
    letters U+0130, U+0131 (both onto [i]), U+017F (onto [s]) and U+212A
    (onto [k]). *)
Definition ci_fold (c : codepoint) : codepoint :=
  if is_ascii_upper c then c + 32
  else if (c =? 0x130) || (c =? 0x131) then 105
  else if c =? 0x17F then 115
  else if c =? 0x212A then 107
  else c.

(** One literal character, and a literal string, under [re.IGNORECASE]. *)
Definition chr_ci (l : codepoint) : regex :=
  Cls (fun c => ci_fold c =? ci_fold l).

Fixpoint lits_ci (l : str) : regex :=
  match l with
  | [] => Eps
  | c :: t => Seq (chr_ci c) (lits_ci t)
  end.

End Re.
Import Re.

(* ================================================================= *)
(** ** [urllib.parse.urlparse] *)

Module UrlParse.

(** Characters [urlsplit] strips from the front of a URL (C0 controls and
    the space) and removes anywhere in it (tab, carriage return, newline). *)
Definition c0_control_or_space (c : codepoint) : bool := in_range 0 0x20 c.
Definition unsafe_url_byte (c : codepoint) : bool :=
  (c =? 9) || (c =? 13) || (c =? 10).

Fixpoint lstrip_c0 (s : str) : str :=
  match s with
  | [] => []
  | c :: t => if c0_control_or_space c then lstrip_c0 t else s
  end.

(** [scheme_chars]: ASCII letters and digits, [+], [-] and [.]. *)
Definition scheme_char (c : codepoint) : bool :=
  is_ascii_alnum c || (c =? 43) || (c =? 45) || (c =? 46).

(** [s.partition(ch)] without the separator; [None] when [ch] is not in
    [s]. *)
Fixpoint split_at (ch : codepoint) (s : str) : option (str * str) :=
  match s with
  | [] => None
  | c :: t =>
      if c =? ch then Some ([], t)
      else match split_at ch t with
           | Some (a, b) => Some (c :: a, b)
           | None => None
           end
  end.

Definition ascii_lower (s : str) : str :=
  List.map (fun c => if is_ascii_upper c then c + 32 else c) s.

(** The network location: up to the first of [/], [?] and [#]. *)
Fixpoint take_netloc (s : str) : str :=
  match s with
  | [] => []
  | c :: t =>
      if (c =? 47) || (c =? 63) || (c =? 35) then [] else c :: take_netloc t
  end.

Definition is_ascii_str (s : str) : bool := forallb (fun c => c <? 0x80) s.
Definition has_bracket (s : str) : bool :=
  existsb (fun c => (c =? 91) || (c =? 93)) s.

(** The scheme and the network location [urlparse] (CPython 3.12) finds in
    a URL, or [None] when it raises [ValueError], which it does on some
    network locations with a square bracket or a character outside ASCII
    (field [netloc_rejected]) and on no other. *)
Definition urlparse (U : unicode_db) (url : str) : option (str * str) :=
  let url := lstrip_c0 url in
  let url := List.filter (fun c => negb (unsafe_url_byte c)) url in
  let '(scheme, rest) :=
    match split_at 58 url with
    | Some (c :: pre, post) =>
        if is_ascii_alpha c && forallb scheme_char (c :: pre)
        then (ascii_lower (c :: pre), post)
        else ([], url)
    | _ => ([], url)
    end in
  match rest with
  | 47 :: 47 :: after =>
      let netloc := take_netloc after in
      if (has_bracket netloc || negb (is_ascii_str netloc))
         && netloc_rejected U netloc
      then None
      else Some (scheme, netloc)
  | _ => Some (scheme, [])
  end.

End UrlParse.
Import UrlParse.

(* ================================================================= *)
(** ** SQLite values *)

Module Sqlite.

(** An INTEGER is a signed 64-bit integer. *)
Definition int64_min : Z := - 2 ^ 63.
Definition int64_max : Z := 2 ^ 63 - 1.

(** The numeric storage classes: a column of type INTEGER holds an INTEGER,
    or a REAL (an IEEE double) when the number does not fit one. *)
Inductive value :=
| Integer (z : Z)
| Real (f : float).

(** [CURRENT_TIMESTAMP], in seconds. *)
Definition timestamp := Z.

(** The number a value stands for: a fraction with a positive denominator,
    an infinity, or not a number. *)
Inductive number :=
| Fraction (n d : Z)
| PosInf
| NegInf
| NaN.

Definition exact_real (f : float) : number :=
  match Prim2SF f with
  | S754_zero _ => Fraction 0 1
  | S754_infinity false => PosInf
  | S754_infinity true => NegInf
  | S754_nan => NaN
  | S754_finite s m e =>
      let m := if s then Z.neg m else Z.pos m in
      if 0 <=? e then Fraction (m * 2 ^ e) 1 else Fraction m (2 ^ (- e))
  end.

Definition exact (v : value) : number :=
  match v with
  | Integer z => Fraction z 1
  | Real f => exact_real f
  end.

(** Numeric comparison, as SQLite and Python both do it between an integer
    and a double: on the exact values. *)
Definition number_leb (a b : number) : bool :=
  match a, b with
  | NaN, _ | _, NaN => false
  | NegInf, _ | _, PosInf => true
  | Fraction n1 d1, Fraction n2 d2 => n1 * d2 <=? n2 * d1
  | _, _ => false
  end.

Definition number_eqb (a b : number) : bool :=
  match a, b with
  | Fraction n1 d1, Fraction n2 d2 => n1 * d2 =? n2 * d1
  | PosInf, PosInf | NegInf, NegInf => true
  | _, _ => false
  end.

Definition value_leb (a b : value) : bool := number_leb (exact a) (exact b).

(** The double nearest to an integer (the C conversion to [double]). *)
Definition real_of_int (z : Z) : float :=
  SF2Prim (binary_normalize prec emax z 0 false).

(** INTEGER affinity applied to a REAL that is about to be stored: it
    becomes an INTEGER when it is a whole number strictly between the
    smallest and the largest 64-bit integer, and stays a REAL otherwise. *)
Definition integer_affinity (f : float) : value :=
  match exact_real f with
  | Fraction n d =>
      if (n mod d =? 0) && (int64_min <? n / d) && (n / d <? int64_max)
      then Integer (n / d)
      else Real f
  | _ => Real f
  end.

(** The expression [click_count + 1], stored back into the INTEGER column:
    integer addition, and floating-point addition when the integer sum
    overflows 64 bits or the operand is a REAL already. *)
Definition plus_one (v : value) : value :=
  match v with
  | Integer z =>
      if z + 1 <=? int64_max then Integer (z + 1)
      else integer_affinity (real_of_int z + 1)%float
  | Real f => integer_affinity (f + 1)%float
  end.

(** Python's [v == n] between a fetched value and an [int]. *)
Definition eq_int (v : value) (n : Z) : bool :=
  number_eqb (exact v) (Fraction n 1).

(** Two to the power 63, the first number past the INTEGER range. *)
Definition two63 : float := 0x1p63%float.

End Sqlite.
Import Sqlite.

(* ================================================================= *)
(** ** The [random] module *)

Module Random.

(** The state of the generator: the numbers it is going to produce, and how
    many of them have been drawn. *)
Record rng := { tape : nat -> nat; cursor : nat }.

(** [random.choice(seq)] for a non-empty [seq]: the element at a drawn index
    below [len(seq)]. *)
Definition choice (seq : str) (g : rng) : codepoint * rng :=
  (nth (Nat.modulo (tape g (cursor g)) (List.length seq)) seq 0,
   {| tape := tape g; cursor := S (cursor g) |}).

End Random.
Import Random.

(* ================================================================= *)
(** ** app/utils.py *)

(** The pattern [is_valid_url] compiles, piece by piece. *)
Module UrlPattern.

(** The character classes, under [re.IGNORECASE]. *)

(** [[A-Z]] *)
Definition letter (c : codepoint) : bool := is_ascii_lower (ci_fold c).
(** [[A-Z0-9]] *)
Definition letter_digit (c : codepoint) : bool := letter c || is_ascii_digit c.
(** [[A-Z0-9-]] *)
Definition letter_digit_dash (c : codepoint) : bool :=
  letter_digit c || (c =? 45).
(** [[/?]] *)
Definition slash_or_query (c : codepoint) : bool := (c =? 47) || (c =? 63).
(** [\S] *)
Definition non_space (c : codepoint) : bool := negb (isspace c).

Definition dot : regex := Cls (fun c => c =? 46).

Section Pattern.
Variable U : unicode_db.

(** [\d] *)
Definition digit : regex := Cls (isdecimal_char U).

(** [https?://] *)
Definition scheme : regex :=
  Seq (lits_ci (lit "http")) (Seq (opt (chr_ci 115)) (lits_ci (lit "://"))).

(** [(?:[A-Z0-9](?:[A-Z0-9-]{0,61}[A-Z0-9])?\.)+[A-Z]{2,6}\.?] *)
Definition domain : regex :=
  Seq (plus (Seq (Cls letter_digit)
               (Seq (opt (Seq (rep 0 61 (Cls letter_digit_dash))
                              (Cls letter_digit)))
                    dot)))
      (Seq (rep 2 6 (Cls letter)) (opt dot)).

(** [localhost] *)
Definition localhost : regex := lits_ci (lit "localhost").

(** [\d{1,3}\.\d{1,3}\.\d{1,3}\.\d{1,3}] *)
Definition ip : regex :=
  Seq (rep 1 3 digit)
      (Seq dot (Seq (rep 1 3 digit)
                    (Seq dot (Seq (rep 1 3 digit) (Seq dot (rep 1 3 digit)))))).

(** [(?::\d+)?] *)
Definition port : regex := opt (Seq (Cls (fun c => c =? 58)) (plus digit)).

(** [(?:/?|[/?]\S+)] *)
Definition path : regex :=
  Alt (opt (Cls (fun c => c =? 47)))
      (Seq (Cls slash_or_query) (plus (Cls non_space))).

(** The pattern between [^] and [$]. *)
Definition url_pattern : regex :=
  Seq scheme (Seq (Alt domain (Alt localhost ip)) (Seq port path)).

End Pattern.
End UrlPattern.

Module Utils.

(** [is_valid_url(url)] on a [str] argument. *)
Definition is_valid_url (U : unicode_db) (url : str) : bool :=
  if is_empty url then false
  else if negb (match_anchored (UrlPattern.url_pattern U) url) then false
  else
    match urlparse U url with
    | Some (scheme, netloc) => negb (is_empty scheme) && negb (is_empty netloc)
    | None => false
    end.

(** [string.ascii_letters + string.digits] *)
Definition characters : str :=
  lit "abcdefghijklmnopqrstuvwxyzABCDEFGHIJKLMNOPQRSTUVWXYZ0123456789".

(** [generate_short_code(length)]: [length] draws from [characters], joined
    in the order they are drawn. *)
Fixpoint generate_short_code (length : nat) (g : rng) : str * rng :=
  match length with
  | O => ([], g)
  | S n =>
      let (c, g1) := choice characters g in
      let (rest, g2) := generate_short_code n g1 in
      (c :: rest, g2)
  end.

(** [generate_unique_short_code(db_instance, length, max_attempts)]; the
    database instance is the lookup [get_url_mapping] it is asked through.
    The result is [None] when every attempt drew a code that is taken. *)
Fixpoint generate_unique_short_code {A : Type}
    (get_url_mapping : str -> option A) (length max_attempts : nat) (g : rng)
  : option str * rng :=
  match max_attempts with
  | O => (None, g)
  | S n =>
      let (short_code, g1) := generate_short_code length g in
      match get_url_mapping short_code with
      | None => (Some short_code, g1)
      | Some _ => generate_unique_short_code get_url_mapping length n g1
      end
  end.

(** The codes the loop of [generate_unique_short_code] draws when none of
    them is free: one per attempt. *)
Fixpoint candidates (length max_attempts : nat) (g : rng) : list str :=
  match max_attempts with
  | O => []
  | S n =>
      let (short_code, g1) := generate_short_code length g in
      short_code :: candidates length n g1
  end.

(** The defaults of [length] and [max_attempts]. *)
Definition default_length : nat := 6.
Definition default_max_attempts : nat := 10.

(** [sanitize_url(url)]. *)
Definition sanitize_url (url : str) : str :=
  if is_empty url then []
  else
    let url := strip url in
    if negb (is_empty url)
       && negb (startswith url (lit "http://") || startswith url (lit "https://"))
    then lit "http://" ++ url
    else url.

(** [validate_short_code(short_code)] on a [str] argument. *)
Definition validate_short_code (U : unicode_db) (short_code : str) : bool :=
  if is_empty short_code then false
  else if negb (len short_code =? 6) then false
  else isalnum U short_code.

End Utils.
Import Utils.

(* ================================================================= *)
(** ** The statements of app/models.py on the table *)

Module Sql.

(** A row of the table [urls]. *)
Record row := {
  short_code : str;
  original_url : str;
  created_at : timestamp;
  click_count : value
}.

(** The table [urls], in insertion order. The PRIMARY KEY constraint on
    [short_code] is enforced by the INSERT statement, not by the type. *)
Definition table := list row.

(** [WHERE short_code = ?] *)
Definition has_code (code : str) (r : row) : bool := str_eqb (short_code r) code.

(** The number of rows [WHERE short_code = ?] selects: what
    [cursor.rowcount] is after an UPDATE or a DELETE that has run. *)
Definition rowcount (code : str) (t : table) : Z :=
  Z.of_nat (List.length (List.filter (has_code code) t)).

(** [SET click_count = v] on one row. *)
Definition set_click_count (r : row) (v : value) : row :=
  {| short_code := short_code r; original_url := original_url r;
     created_at := created_at r; click_count := v |}.

(** [INSERT INTO urls (short_code, original_url) VALUES (?, ?)] at the time
    [now]: the statement is refused ([sqlite3.IntegrityError], here [false])
    when the key is taken; otherwise the row is added with the defaults of
    the two other columns. *)
Definition insert_row (t : table) (code url : str) (now : timestamp)
  : bool * table :=
  if existsb (has_code code) t then (false, t)
  else (true, t ++ [{| short_code := code; original_url := url;
                       created_at := now; click_count := Integer 0 |}]).

(** [fetchone] on [SELECT ... FROM urls WHERE short_code = ?]. *)
Definition select_row (t : table) (code : str) : option row :=
  List.find (has_code code) t.

(** [UPDATE urls SET click_count = click_count + 1 WHERE short_code = ?],
    then [cursor.rowcount > 0]. *)
Definition update_row (t : table) (code : str) : bool * table :=
  (0 <? rowcount code t,
   List.map (fun r =>
               if has_code code r
               then set_click_count r (plus_one (click_count r))
               else r) t).

(** [DELETE FROM urls WHERE short_code = ?], then [cursor.rowcount > 0]. *)
Definition delete_row (t : table) (code : str) : bool * table :=
  (0 <? rowcount code t, List.filter (fun r => negb (has_code code r)) t).

End Sql.
Import Sql.

(* ================================================================= *)
(** ** app/models.py *)

Module Models.

(** Can [sqlite3] bind the string as a parameter: it encodes it in UTF-8,
    and raises [UnicodeEncodeError] on a surrogate (U+D800 to U+DFFF),
    which a [str] can hold, for one from a JSON escape. *)
Definition encodable (s : str) : bool :=
  forallb (fun c => negb (in_range 0xD800 0xDFFF c)) s.

(** The database file as the methods of [URLShortenerDB] find it: the rows
    of the table, and whether a connection that an earlier call left open
    holds the write lock. Every method opens a connection of its own and
    closes it on the path without exception only; a connection left open on
    another path stays open until the garbage collector closes it. The one
    that a refused INSERT leaves is inside its transaction and holds the
    write lock: statements that read still run, and every statement that
    writes fails with [sqlite3.OperationalError] (database is locked). The
    connections the other exceptions leave hold no lock. *)
Record store := { rows : table; write_locked : bool }.

(** The database [_init_db] creates in a new file. *)
Definition init_db : store := {| rows := []; write_locked := false |}.

(** [create_url_mapping(short_code, original_url)] at the time [now]. The
    method returns [False] from its two [except] clauses: when a parameter
    cannot be bound, when the database is locked, and when the INSERT is
    refused, which leaves the connection open and the database locked. *)
Definition create_url_mapping (s : store) (code url : str) (now : timestamp)
  : bool * store :=
  if negb (encodable code && encodable url) then (false, s)
  else if write_locked s then (false, s)
  else
    let (inserted, t) := insert_row (rows s) code url now in
    if inserted then (true, {| rows := t; write_locked := false |})
    else (false, {| rows := rows s; write_locked := true |}).

(** [get_url_mapping(short_code)]: the row, when there is one; [None] also
    from the [except] clause, when the parameter cannot be bound. *)
Definition get_url_mapping (s : store) (code : str) : option row :=
  if encodable code then select_row (rows s) code else None.

(** [increment_click_count(short_code)]: [cursor.rowcount > 0] after the
    UPDATE, and [False] from the [except] clause, when the parameter cannot
    be bound or the database is locked. *)
Definition increment_click_count (s : store) (code : str) : bool * store :=
  if negb (encodable code) then (false, s)
  else if write_locked s then (false, s)
  else
    let (updated, t) := update_row (rows s) code in
    (updated, {| rows := t; write_locked := false |}).

(** [get_all_urls()]. *)
Definition get_all_urls (s : store) : list row := rows s.

(** [delete_url(short_code)]: [cursor.rowcount > 0] after the DELETE, and
    [False] from the [except] clause, as for the UPDATE. *)
Definition delete_url (s : store) (code : str) : bool * store :=
  if negb (encodable code) then (false, s)
  else if write_locked s then (false, s)
  else
    let (deleted, t) := delete_row (rows s) code in
    (deleted, {| rows := t; write_locked := false |}).

(** The garbage collector closes the connections that were left open: the
    transaction of the one that holds the write lock is rolled back, and
    the lock is free. *)
Definition collect (s : store) : store :=
  {| rows := rows s; write_locked := false |}.

(** The calls a client of the store can make, and a run of the garbage
    collector between two of them; the store after a sequence of them. *)
Inductive op :=
| Create (code url : str) (now : timestamp)
| Get (code : str)
| RecordVisit (code : str)
| ListAll
| Delete (code : str)
| Collect.

Definition step (s : store) (o : op) : store :=
  match o with
  | Create code url now => snd (create_url_mapping s code url now)
  | Get _ => s
  | RecordVisit code => snd (increment_click_count s code)
  | ListAll => s
  | Delete code => snd (delete_url s code)
  | Collect => collect s
  end.

Definition run (ops : list op) (s : store) : store := fold_left step ops s.

(** [n] calls of [increment_click_count(code)] in a row: did all of them
    return [True], and the store after the last. *)
Fixpoint record_visits (n : nat) (code : str) (s : store) : bool * store :=
  match n with
  | O => (true, s)
  | S n' =>
      let (ok, s1) := increment_click_count s code in
      let (oks, s2) := record_visits n' code s1 in
      (ok && oks, s2)
  end.

End Models.
Import Models.

(* ================================================================= *)
(** ** app/main.py *)

Module Main.

(** What the handlers read and write: the database behind the global [db]
    and the state of the random generator. *)
Record world := { db : store; random_state : rng }.

(** A JSON value under the key ['url']. *)
Inductive json_value :=
| JStr (s : str)
| JNotStr.

(** The responses of the three handlers. *)
Inductive response :=
| Created201 (short_code original_url short_url : str)
| Redirect302 (location : str)
| Stats200 (short_code original_url : str) (click_count : value)
           (created_at : timestamp)
| Error400 (error : str)
| Error404 (error : str)
| Error500 (error : str).

(** [POST /api/shorten]. [data] is the value of the key ['url'] in the body,
    [None] when the body is empty or has no such key; [now] is the time of
    the request. *)
Definition shorten_url (U : unicode_db) (data : option json_value)
    (now : timestamp) (w : world) : response * world :=
  match data with
  | None => (Error400 (lit "Missing 'url' field in request body"), w)
  | Some JNotStr => (Error400 (lit "Invalid URL format"), w)
  | Some (JStr original_url) =>
      if negb (is_valid_url U original_url)
      then (Error400 (lit "Invalid URL format"), w)
      else
        let sanitized_url := sanitize_url original_url in
        let (generated, g) :=
          generate_unique_short_code (get_url_mapping (db w))
            default_length default_max_attempts (random_state w) in
        match generated with
        | None =>
            (Error500 (lit "Unable to generate unique short code"),
             {| db := db w; random_state := g |})
        | Some short_code =>
            let (success, s) :=
              create_url_mapping (db w) short_code sanitized_url now in
            if negb success
            then (Error500 (lit "Failed to create URL mapping"),
                  {| db := s; random_state := g |})
            else (Created201 short_code sanitized_url
                    (lit "http://localhost:5000/" ++ short_code),
                  {| db := s; random_state := g |})
        end
  end.

(** [GET /<short_code>]. The two [abort(404)] calls are inside the [try]
    block, whose handler catches the exception they raise and aborts with
    500. What [increment_click_count] returns is not looked at. *)
Definition redirect_to_original (U : unicode_db) (short_code : str)
    (w : world) : response * world :=
  if negb (validate_short_code U short_code)
  then (Error500 (lit "Internal server error"), w)
  else
    match get_url_mapping (db w) short_code with
    | None => (Error500 (lit "Internal server error"), w)
    | Some mapping =>
        let (_, s) := increment_click_count (db w) short_code in
        (Redirect302 (original_url mapping),
         {| db := s; random_state := random_state w |})
    end.

(** [GET /api/stats/<short_code>]. *)
Definition get_url_stats (U : unicode_db) (short_code : str) (w : world)
  : response * world :=
  if negb (validate_short_code U short_code)
  then (Error400 (lit "Invalid short code format"), w)
  else
    match get_url_mapping (db w) short_code with
    | None => (Error404 (lit "Short code not found"), w)
    | Some mapping =>
        (Stats200 (Sql.short_code mapping) (original_url mapping)
           (click_count mapping) (created_at mapping), w)
    end.

End Main.
Import Main.

(* ================================================================= *)
(** ** Inputs of the examples *)

Module Samples.

(** A database that knows no character outside the tabulated blocks, for
    the runs on ASCII inputs. *)
Definition ascii_db : unicode_db :=
  {| ucd_isalnum := fun _ => false;
     ucd_isdecimal := fun _ => false;
     netloc_rejected := fun _ => false |}.

(** A generator that always draws the first character: every code it
    produces is [aaaaaa]. *)
Definition constant_rng : rng := {| tape := fun _ => O; cursor := O |}.

(** A new service. *)
Definition fresh_world : world :=
  {| db := init_db; random_state := constant_rng |}.

(** A service whose only mapping has the code the generator keeps
    drawing. *)
Definition crowded_world : world :=
  {| db := {| rows := [{| short_code := lit "aaaaaa";
                          original_url := lit "https://example.com";
                          created_at := 0; click_count := Integer 0 |}];
              write_locked := false |};
     random_state := constant_rng |}.

(** The same service after a [create_url_mapping] that the key refused:
    the database is locked. *)
Definition locked_world : world :=
  {| db := {| rows := rows (db crowded_world); write_locked := true |};
     random_state := constant_rng |}.


(** Six times e with an acute accent, and the fullwidth digits one to
    six. *)
Definition six_accented : str := [0xE9; 0xE9; 0xE9; 0xE9; 0xE9; 0xE9].
Definition six_fullwidth : str :=
  [0xFF11; 0xFF12; 0xFF13; 0xFF14; 0xFF15; 0xFF16].

(** Two to the power 63, plus one, recorded visits. *)
Definition past_int64 : nat := Z.to_nat (2 ^ 63 + 1).

End Samples.
Import Samples.

(* ================================================================= *)
(** ** tests/test_basic.py and the routes of the application *)

Module Tests.


End Tests.
Import Tests.

Module Routes.

(** A request to one of the three routes that use the store:
    [POST /api/shorten], [GET /<short_code>] and
    [GET /api/stats/<short_code>]. *)
Inductive request :=
| PostShorten (data : option json_value) (now : timestamp)
| GetRedirect (short_code : str)
| GetStats (short_code : str).

(** The handler of the route, on the request. *)
Definition handle (U : unicode_db) (q : request) (w : world)
  : response * world :=
  match q with
  | PostShorten data now => shorten_url U data now w
  | GetRedirect short_code => redirect_to_original U short_code w
  | GetStats short_code => get_url_stats U short_code w
  end.

(** The state of the service after a history of requests. *)
Definition serve (U : unicode_db) (qs : list request) (w : world) : world :=
  fold_left (fun w q => snd (handle U q w)) qs w.

End Routes.
Import Routes.

(* ================================================================= *)
(** ** Vocabulary of the statements *)

Module Vocabulary.

(** The first character of a string, if any, is not whitespace. *)
Definition head_ok (s : str) : bool :=
  match s with [] => true | c :: _ => negb (isspace c) end.

(** The codes of the rows of a table, in order. *)
Definition codes (t : table) : list str := List.map short_code t.

(** The values a counter takes: an INTEGER from 0 to the largest one, and
    the REAL two to the 63 once the largest INTEGER has been passed. *)
Definition count_ok (v : value) : Prop :=
  (exists z, v = Integer z /\ 0 <= z <= int64_max) \/ v = Real two63.

(** The counter after [n] increments of a new row. *)
Definition count_after (n : nat) : value :=
  if Z.of_nat n <=? int64_max then Integer (Z.of_nat n) else Real two63.

(** Every counter of the table is a value a counter can take. *)
Definition counts_ok (t : table) : Prop :=
  Forall (fun r => count_ok (click_count r)) t.

(** The three columns that are set at creation are the same in both rows. *)
Definition same_mapping (r r' : row) : Prop :=
  short_code r' = short_code r
  /\ original_url r' = original_url r
  /\ created_at r' = created_at r.

End Vocabulary.
Import Vocabulary.

Module Shapes.

(** Is the code free in the store that answers [get]. *)
Definition is_free {A : Type} (get : str -> option A) (code : str) : bool :=
  match get code with None => true | Some _ => false end.

(** The characters [generate_short_code] joins: the [i]-th is chosen by the
    [i]-th number the generator is going to produce. *)
Definition drawn_code (length : nat) (g : rng) : str :=
  List.map (fun i => nth (Nat.modulo (tape g (cursor g + i)) 62) characters 0)
    (List.seq 0 length).

(** ASCII whitespace: the whitespace characters below U+0080. *)
Definition ascii_space (c : codepoint) : bool := isspace c && (c <? 0x80).

(** The string begins with [http://] or [https://] up to the case folding
    of the pattern, under which U+017F is an [s] too. *)
Definition has_http_scheme (s : str) : Prop :=
  exists s1 s2,
    s = s1 ++ s2
    /\ (List.map ci_fold s1 = lit "http://"
        \/ List.map ci_fold s1 = lit "https://").

(** No class of the pattern accepts a character that [P] holds of. *)
Fixpoint classes_avoid (P : codepoint -> bool) (r : regex) : Prop :=
  match r with
  | Void | Eps => True
  | Cls p => forall c, p c = true -> P c = false
  | Seq a b | Alt a b => classes_avoid P a /\ classes_avoid P b
  | Star a => classes_avoid P a
  end.

(** The string begins with [http://] or [https://], in small or capital
    ASCII letters. *)
Definition has_ascii_http_scheme (s : str) : Prop :=
  exists s1 s2,
    s = s1 ++ s2
    /\ (ascii_lower s1 = lit "http://" \/ ascii_lower s1 = lit "https://").

(** What an operation does to the rows when its statement runs and is not
    refused. *)
Definition table_step (t : table) (o : op) : table :=
  match o with
  | Create code url now => snd (insert_row t code url now)
  | RecordVisit code => snd (update_row t code)
  | Delete code => snd (delete_row t code)
  | Get _ | ListAll | Collect => t
  end.

(** Every code in the table can be bound as a parameter. *)
Definition codes_encodable (t : table) : Prop :=
  Forall (fun r => encodable (short_code r) = true) t.

(** The characters that end a network location or bracket a host in it:
    [/], [?], [#], and the square brackets. *)
Definition netloc_special (c : codepoint) : bool :=
  (c =? 47) || (c =? 63) || (c =? 35) || (c =? 91) || (c =? 93).

(** A row as [shorten_url] stores them: a code of six ASCII letters and
    digits, and a URL without whitespace around it that begins with
    [http://] or [https://]. *)
Definition row_well_formed (r : row) : Prop :=
  List.length (short_code r) = 6%nat
  /\ forallb is_ascii_alnum (short_code r) = true
  /\ strip (original_url r) = original_url r
  /\ (startswith (original_url r) (lit "http://")
      || startswith (original_url r) (lit "https://")) = true.


End Shapes.
Import Shapes.

(* ================================================================= *)
(** * Properties *)

Lemma str_eqb_eq (a b : str) : str_eqb a b = true <-> a = b.
Proof.
  revert b; induction a as [|x a IH]; intros [|y b]; simpl; split;
    try congruence; try discriminate; try reflexivity.
  - intros H. apply andb_true_iff in H as [H1 H2].
    apply Z.eqb_eq in H1. apply IH in H2. congruence.
  - intros H. injection H as -> ->. rewrite Z.eqb_refl. simpl. now apply IH.
Qed.

Section Strip.

Lemma lstrip_head_ok s : head_ok (lstrip s) = true.
Proof.
  induction s as [|c t IH]; simpl; [reflexivity|].
  destruct (isspace c) eqn:E; [exact IH|]. simpl. now rewrite E.
Qed.

Lemma lstrip_id s : head_ok s = true -> lstrip s = s.
Proof.
  destruct s as [|c t]; simpl; [reflexivity|].
  intros H. apply negb_true_iff in H. now rewrite H.
Qed.

Lemma rstrip_head_ok s : head_ok s = true -> head_ok (rstrip s) = true.
Proof.
  destruct s as [|c t]; simpl; [reflexivity|]. intros H.
  destruct (rstrip t); simpl.
  - apply negb_true_iff in H. rewrite H. simpl. now rewrite H.
  - exact H.
Qed.

Lemma rstrip_idem s : rstrip (rstrip s) = rstrip s.
Proof.
  induction s as [|c t IH]; simpl; [reflexivity|].
  destruct (rstrip t) as [|d r] eqn:E.
  - destruct (isspace c) eqn:Ec; simpl; [reflexivity|]. now rewrite Ec.
  - change (rstrip (c :: d :: r)) with
      (match rstrip (d :: r) with
       | [] => if isspace c then [] else [c]
       | r' => c :: r' end).
    rewrite IH. reflexivity.
Qed.

Lemma rstrip_app_nonempty p s :
  rstrip s <> [] -> rstrip (p ++ s) = p ++ rstrip s.
Proof.
  intros H. induction p as [|c p IH]; simpl; [reflexivity|].
  rewrite IH. destruct (p ++ rstrip s) eqn:E; [|reflexivity].
  apply app_eq_nil in E. tauto.
Qed.

Lemma strip_idem s : strip (strip s) = strip s.
Proof.
  unfold strip.
  rewrite (lstrip_id (rstrip (lstrip s))).
  - apply rstrip_idem.
  - apply rstrip_head_ok, lstrip_head_ok.
Qed.

Lemma strip_prefixed p s :
  head_ok p = true -> p <> [] -> strip s <> [] ->
  strip (p ++ strip s) = p ++ strip s.
Proof.
  intros Hp Hne Hs. unfold strip at 1.
  rewrite lstrip_id.
  - rewrite rstrip_app_nonempty.
    + f_equal. unfold strip. apply rstrip_idem.
    + unfold strip. rewrite rstrip_idem. exact Hs.
  - destruct p; [congruence|exact Hp].
Qed.

End Strip.

Lemma startswith_app p s : startswith (p ++ s) p = true.
Proof.
  induction p as [|c p IH]; simpl; [reflexivity|].
  now rewrite Z.eqb_refl.
Qed.

Lemma is_empty_false_iff (s : str) : is_empty s = false <-> s <> [].
Proof. destruct s; simpl; split; congruence. Qed.

Lemma http_prefix_nonempty (s : str) : is_empty (lit "http://" ++ s) = false.
Proof. reflexivity. Qed.

(** C8. Normalisation is idempotent: sanitising an already sanitised URL
    returns it unchanged, for every input string. *)
Theorem sanitize_url_idempotent (x : str) :
  sanitize_url (sanitize_url x) = sanitize_url x.
Proof.
  unfold sanitize_url. cbv zeta.
  destruct (is_empty x) eqn:Ex; [reflexivity|].
  destruct (is_empty (strip x)) eqn:Es.
  - (* only whitespace: the result is the empty string *)
    cbn [negb andb]. rewrite Es.
    destruct (strip x); [reflexivity|discriminate].
  - cbn [negb andb].
    destruct (startswith (strip x) (lit "http://")
              || startswith (strip x) (lit "https://")) eqn:Ep.
    + (* the scheme is there: only the trimming happened *)
      cbn [negb]. rewrite Es, strip_idem, Es, Ep. reflexivity.
    + (* the scheme was added in front of a trimmed, non-empty string *)
      cbn [negb]. apply is_empty_false_iff in Es.
      rewrite http_prefix_nonempty.
      rewrite strip_prefixed; [|reflexivity|discriminate|exact Es].
      rewrite http_prefix_nonempty, startswith_app. reflexivity.
Qed.

(* ================================================================= *)
(** ** The matcher decides the language of the pattern *)

Section Matcher.

Implicit Types (r a b : regex) (s : str) (c : codepoint).

Lemma in_lang_void s : ~ in_lang Void s.
Proof. intros H. inversion H. Qed.

Lemma in_lang_eps s : in_lang Eps s <-> s = [].
Proof. split; [intros H; now inversion H|intros ->; constructor]. Qed.

Lemma in_lang_seq a b s :
  in_lang (Seq a b) s
  <-> exists s1 s2, s = s1 ++ s2 /\ in_lang a s1 /\ in_lang b s2.
Proof.
  split.
  - intros H. inversion H; subst. eauto.
  - intros [s1 [s2 [-> [H1 H2]]]]. now constructor.
Qed.

Lemma in_lang_alt a b s : in_lang (Alt a b) s <-> in_lang a s \/ in_lang b s.
Proof.
  split.
  - intros H. inversion H; subst; auto.
  - intros [H|H]; [now apply in_alt_l|now apply in_alt_r].
Qed.

Lemma nullable_in_lang r : nullable r = true <-> in_lang r [].
Proof.
  induction r as [| |p|a IHa b IHb|a IHa b IHb|a IHa]; simpl.
  - split; [discriminate|intros H; inversion H].
  - split; [constructor|reflexivity].
  - split; [discriminate|intros H; inversion H].
  - rewrite andb_true_iff, IHa, IHb, in_lang_seq. split.
    + intros [H1 H2]. exists [], []. auto.
    + intros [s1 [s2 [E [H1 H2]]]]. symmetry in E.
      apply app_eq_nil in E as [-> ->]. auto.
  - rewrite orb_true_iff, IHa, IHb, in_lang_alt. reflexivity.
  - split; [constructor|reflexivity].
Qed.

Lemma seq_in_lang a b s : in_lang (seq a b) s <-> in_lang (Seq a b) s.
Proof.
  assert (Hvl : forall x, in_lang Void s <-> in_lang (Seq Void x) s).
  { intros x. split; [intros H; inversion H|].
    intros H. apply in_lang_seq in H as [s1 [s2 [_ [H _]]]]. inversion H. }
  assert (Hvr : forall x, in_lang Void s <-> in_lang (Seq x Void) s).
  { intros x. split; [intros H; inversion H|].
    intros H. apply in_lang_seq in H as [s1 [s2 [_ [_ H]]]]. inversion H. }
  assert (He : forall x, in_lang x s <-> in_lang (Seq Eps x) s).
  { intros x. split.
    - intros H. change s with ([] ++ s). constructor; [constructor|exact H].
    - intros H. apply in_lang_seq in H as [s1 [s2 [-> [H1 H2]]]].
      apply in_lang_eps in H1. now subst. }
  destruct a, b; simpl; try reflexivity;
    try apply Hvl; try apply Hvr; try apply He.
Qed.

Lemma alt_in_lang a b s : in_lang (alt a b) s <-> in_lang (Alt a b) s.
Proof.
  rewrite in_lang_alt.
  assert (Hv : ~ in_lang Void s) by apply in_lang_void.
  destruct a, b; simpl; rewrite ?in_lang_alt; tauto.
Qed.

(** A non-empty word of a repetition starts with a non-empty word of its
    body. *)
Lemma in_lang_star_cons a c s :
  in_lang (Star a) (c :: s) ->
  exists s1 s2, s = s1 ++ s2 /\ in_lang a (c :: s1) /\ in_lang (Star a) s2.
Proof.
  intros H. remember (Star a) as r eqn:Er. remember (c :: s) as w eqn:Ew.
  revert s Ew. induction H as [| | | | | |a' s1 s2 H1 _ H2 IH2];
    try discriminate; intros s Ew.
  injection Er as ->. destruct s1 as [|x s1].
  - simpl in Ew. now apply IH2.
  - simpl in Ew. injection Ew as -> <-. eauto.
Qed.

Lemma deriv_in_lang c r s : in_lang (deriv c r) s <-> in_lang r (c :: s).
Proof.
  revert s. induction r as [| |p|a IHa b IHb|a IHa b IHb|a IHa]; intros s.
  - simpl. split; intros H; inversion H.
  - simpl. split; intros H; inversion H.
  - simpl. destruct (p c) eqn:Ep.
    + rewrite in_lang_eps. split.
      * intros ->. now constructor.
      * intros H. now inversion H.
    + split; [intros H; inversion H|].
      intros H. inversion H; subst. congruence.
  - assert (Hleft : in_lang (seq (deriv c a) b) s
                    <-> exists s1 s2, s = s1 ++ s2 /\ in_lang a (c :: s1)
                                      /\ in_lang b s2).
    { rewrite seq_in_lang, in_lang_seq. split.
      - intros [s1 [s2 [E [H1 H2]]]]. exists s1, s2. now rewrite <- IHa.
      - intros [s1 [s2 [E [H1 H2]]]]. exists s1, s2. now rewrite IHa. }
    assert (Hsplit : in_lang (Seq a b) (c :: s)
                     <-> (exists s1 s2, s = s1 ++ s2 /\ in_lang a (c :: s1)
                                        /\ in_lang b s2)
                         \/ (in_lang a [] /\ in_lang b (c :: s))).
    { rewrite in_lang_seq. split.
      - intros [[|x s1] [s2 [E [H1 H2]]]]; simpl in E.
        + right. now subst s2.
        + left. injection E as <- ->. eauto.
      - intros [[s1 [s2 [-> [H1 H2]]]]|[H1 H2]].
        + exists (c :: s1), s2. auto.
        + exists [], (c :: s). auto. }
    simpl. rewrite Hsplit. destruct (nullable a) eqn:En.
    + rewrite alt_in_lang, in_lang_alt, Hleft, IHb.
      apply nullable_in_lang in En. tauto.
    + rewrite Hleft. split; [tauto|]. intros [H|[H _]]; [exact H|].
      apply nullable_in_lang in H. congruence.
  - simpl. rewrite alt_in_lang, !in_lang_alt, IHa, IHb. reflexivity.
  - simpl. rewrite seq_in_lang, in_lang_seq. split.
    + intros [s1 [s2 [-> [H1 H2]]]]. apply IHa in H1.
      change (c :: s1 ++ s2) with ((c :: s1) ++ s2). now constructor.
    + intros H. apply in_lang_star_cons in H as [s1 [s2 [-> [H1 H2]]]].
      exists s1, s2. now rewrite IHa.
Qed.

(** [fullmatch] accepts exactly the words of the pattern. *)
Theorem fullmatch_in_lang r s : fullmatch r s = true <-> in_lang r s.
Proof.
  revert r. induction s as [|c s IH]; intros r; simpl.
  - apply nullable_in_lang.
  - rewrite IH. apply deriv_in_lang.
Qed.

(** The derived forms. *)
Lemma in_lang_opt r s : in_lang (opt r) s <-> in_lang r s \/ s = [].
Proof. unfold opt. now rewrite in_lang_alt, in_lang_eps. Qed.

Lemma in_lang_times n r s :
  in_lang (times n r) s
  <-> exists ws, List.length ws = n /\ s = List.concat ws
                 /\ Forall (in_lang r) ws.
Proof.
  revert s. induction n as [|n IH]; intros s; simpl.
  - rewrite in_lang_eps. split.
    + intros ->. exists []. repeat split. constructor.
    + intros [[|w ws] [E [-> _]]]; [reflexivity|discriminate].
  - rewrite in_lang_seq. split.
    + intros [s1 [s2 [-> [H1 H2]]]]. apply IH in H2 as [ws [E [-> Hall]]].
      exists (s1 :: ws). simpl. repeat split; [now rewrite E|].
      now constructor.
    + intros [[|w ws] [E [-> Hall]]]; [discriminate|].
      inversion Hall; subst. exists w, (List.concat ws).
      repeat split; [assumption|]. apply IH. exists ws.
      simpl in E. injection E as E. auto.
Qed.

Lemma in_lang_upto n r s :
  in_lang (upto n r) s
  <-> exists ws, (List.length ws <= n)%nat /\ s = List.concat ws
                 /\ Forall (in_lang r) ws.
Proof.
  revert s. induction n as [|n IH]; intros s; simpl.
  - rewrite in_lang_eps. split.
    + intros ->. exists []. repeat split; [simpl; lia|constructor].
    + intros [[|w ws] [E [-> _]]]; [reflexivity|simpl in E; lia].
  - rewrite in_lang_opt, in_lang_seq. split.
    + intros [[s1 [s2 [-> [H1 H2]]]]| ->].
      * apply IH in H2 as [ws [E [-> Hall]]].
        exists (s1 :: ws). simpl. repeat split; [lia|now constructor].
      * exists []. repeat split; [simpl; lia|constructor].
    + intros [[|w ws] [E [-> Hall]]]; [now right|]. left.
      inversion Hall; subst. exists w, (List.concat ws).
      repeat split; [assumption|]. apply IH. exists ws.
      simpl in E. repeat split; [lia|assumption].
Qed.

End Matcher.

(* ================================================================= *)
(** ** The validators on the inputs of the tests *)

(** C9. The URL validator on the six boundary inputs: four are rejected and
    two are accepted, whatever the Unicode database says outside ASCII. *)
Theorem is_valid_url_boundary_cases (U : unicode_db) :
  is_valid_url U (lit "not-a-url") = false
  /\ is_valid_url U (lit "ftp://example.com") = false
  /\ is_valid_url U (lit "https://") = false
  /\ is_valid_url U (lit "http://.com") = false
  /\ is_valid_url U (lit "https://www.example.com") = true
  /\ is_valid_url U (lit "http://192.168.1.1:8080") = true.
Proof. repeat split; vm_compute; reflexivity. Qed.

(** The other URLs the tests of the repository expect to be accepted or
    rejected. *)
Lemma is_valid_url_test_inputs (U : unicode_db) :
  is_valid_url U (lit "http://localhost:3000") = true
  /\ is_valid_url U (lit "https://subdomain.example.co.uk/path?param=value") = true
  /\ is_valid_url U (lit "https://www.example.com/very/long/url/that/needs/shortening") = true
  /\ is_valid_url U (lit "not-a-valid-url") = false
  /\ is_valid_url U [] = false.
Proof. repeat split; vm_compute; reflexivity. Qed.

(** C10. The format check of short codes accepts strings outside the 62
    symbols of the alphabet: two strings of six characters, none of them in
    [A-Za-z0-9], pass [validate_short_code]. *)
Theorem validate_short_code_beyond_ascii (U : unicode_db) :
  validate_short_code U six_accented = true
  /\ forallb (fun c => negb (is_ascii_alnum c)) six_accented = true
  /\ validate_short_code U six_fullwidth = true
  /\ forallb (fun c => negb (is_ascii_alnum c)) six_fullwidth = true.
Proof. repeat split; vm_compute; reflexivity. Qed.

(** On ASCII the check is membership in the alphabet of the generator. *)
Lemma validate_short_code_examples (U : unicode_db) :
  validate_short_code U (lit "abc123") = true
  /\ validate_short_code U (lit "short") = false
  /\ validate_short_code U (lit "has space") = false
  /\ validate_short_code U (lit "nonexistent") = false
  /\ validate_short_code U (lit "ab-123") = false.
Proof. repeat split; vm_compute; reflexivity. Qed.

(** C1. The handler validates the URL as it was submitted and sanitises it
    afterwards: the input [github.com] is answered with 400 and nothing is
    stored or drawn, although its sanitised form [http://github.com] is a
    valid URL. *)
Theorem shorten_url_rejects_schemeless (U : unicode_db) (now : timestamp)
    (w : world) :
  shorten_url U (Some (JStr (lit "github.com"))) now w
    = (Error400 (lit "Invalid URL format"), w)
  /\ sanitize_url (lit "github.com") = lit "http://github.com"
  /\ is_valid_url U (sanitize_url (lit "github.com")) = true.
Proof. repeat split; vm_compute; reflexivity. Qed.

(* ================================================================= *)
(** ** The table and its key *)

Section Table.

Implicit Types (t : table) (r : row) (c k : str).

Lemma str_eqb_refl (a : str) : str_eqb a a = true.
Proof. now apply str_eqb_eq. Qed.

Lemma str_eqb_neq (a b : str) : str_eqb a b = false <-> a <> b.
Proof.
  split.
  - intros H E. apply str_eqb_eq in E. congruence.
  - intros H. destruct (str_eqb a b) eqn:E; [|reflexivity].
    apply str_eqb_eq in E. contradiction.
Qed.

Lemma has_code_iff c r : has_code c r = true <-> short_code r = c.
Proof. apply str_eqb_eq. Qed.

Lemma existsb_has_code c t :
  existsb (has_code c) t = true <-> In c (codes t).
Proof.
  unfold codes. rewrite existsb_exists, in_map_iff. split.
  - intros [r [Hin Hr]]. exists r. split; [now apply has_code_iff|exact Hin].
  - intros [r [Hr Hin]]. exists r. split; [exact Hin|now apply has_code_iff].
Qed.

Lemma select_none_iff t c : select_row t c = None <-> ~ In c (codes t).
Proof.
  unfold select_row. rewrite <- existsb_has_code. split.
  - intros H E. apply existsb_exists in E as [r [Hin Hr]].
    now rewrite (find_none _ _ H r Hin) in Hr.
  - intros H. destruct (find (has_code c) t) as [r|] eqn:E; [|reflexivity].
    apply find_some in E as [Hin Hr]. exfalso. apply H.
    apply existsb_exists. now exists r.
Qed.

Lemma select_some_code t c r : select_row t c = Some r -> short_code r = c.
Proof.
  unfold select_row. intros H. apply find_some in H as [_ H].
  now apply has_code_iff.
Qed.

Lemma select_some_in t c r : select_row t c = Some r -> In r t.
Proof. unfold select_row. intros H. now apply find_some in H. Qed.

Lemma rowcount_zero t c : ~ In c (codes t) -> rowcount c t = 0.
Proof.
  intros H. unfold rowcount.
  replace (List.filter (has_code c) t) with (@nil row); [reflexivity|].
  symmetry. induction t as [|r t IH]; simpl; [reflexivity|].
  destruct (has_code c r) eqn:E.
  - exfalso. apply H. left. now apply has_code_iff.
  - apply IH. intros Hin. apply H. now right.
Qed.

Lemma rowcount_pos t c : In c (codes t) -> 0 < rowcount c t.
Proof.
  intros H. unfold rowcount. apply existsb_has_code in H.
  apply existsb_exists in H as [r [Hin Hr]].
  assert (Hf : In r (List.filter (has_code c) t)) by (apply filter_In; auto).
  destruct (List.filter (has_code c) t); [contradiction|simpl; lia].
Qed.

(** An UPDATE that matches no row is the identity on the table. *)
Lemma update_absent t c (f : row -> row) :
  ~ In c (codes t) -> List.map (fun r => if has_code c r then f r else r) t = t.
Proof.
  induction t as [|r t IH]; simpl; intros H; [reflexivity|].
  destruct (has_code c r) eqn:E.
  - exfalso. apply H. left. now apply has_code_iff.
  - f_equal. apply IH. tauto.
Qed.

Lemma codes_app t1 t2 : codes (t1 ++ t2) = codes t1 ++ codes t2.
Proof. apply map_app. Qed.

Lemma insert_taken t c u now :
  In c (codes t) -> insert_row t c u now = (false, t).
Proof.
  intros H. unfold insert_row.
  apply existsb_has_code in H. now rewrite H.
Qed.

Lemma insert_free t c u now :
  ~ In c (codes t) ->
  insert_row t c u now
  = (true, t ++ [{| short_code := c; original_url := u;
                    created_at := now; click_count := Integer 0 |}]).
Proof.
  intros H. unfold insert_row.
  destruct (existsb (has_code c) t) eqn:E; [|reflexivity].
  apply existsb_has_code in E. contradiction.
Qed.

Lemma insert_true_inv t c u now t' :
  insert_row t c u now = (true, t') ->
  ~ In c (codes t)
  /\ t' = t ++ [{| short_code := c; original_url := u;
                   created_at := now; click_count := Integer 0 |}].
Proof.
  unfold insert_row.
  destruct (existsb (has_code c) t) eqn:E; [discriminate|].
  intros H. injection H as <-. split; [|reflexivity].
  intros Hin. apply existsb_has_code in Hin. congruence.
Qed.

Lemma codes_update t c (f : row -> row) :
  (forall r, short_code (f r) = short_code r) ->
  codes (List.map (fun r => if has_code c r then f r else r) t) = codes t.
Proof.
  intros Hf. unfold codes. rewrite map_map. apply map_ext.
  intros r. destruct (has_code c r); [apply Hf|reflexivity].
Qed.

Lemma codes_update_row t c : codes (snd (update_row t c)) = codes t.
Proof. simpl. apply codes_update. reflexivity. Qed.

Lemma NoDup_codes_filter t (p : row -> bool) :
  NoDup (codes t) -> NoDup (codes (List.filter p t)).
Proof.
  induction t as [|r t IH]; simpl; intros H; [constructor|].
  inversion H as [|? ? Hnotin Hnd]; subst.
  destruct (p r); simpl; [|now apply IH].
  constructor; [|now apply IH].
  intros Hin. apply Hnotin. unfold codes in *.
  apply in_map_iff in Hin as [r' [E Hin]]. apply filter_In in Hin as [Hin _].
  apply in_map_iff. now exists r'.
Qed.

Lemma select_app_some t t2 k r :
  select_row t k = Some r -> select_row (t ++ t2) k = Some r.
Proof.
  unfold select_row. induction t as [|x t IH]; simpl; [discriminate|].
  destruct (has_code k x); [trivial|exact IH].
Qed.

Lemma select_app_none t t2 k :
  select_row t k = None ->
  select_row (t ++ t2) k = select_row t2 k.
Proof.
  unfold select_row. induction t as [|x t IH]; simpl; [reflexivity|].
  destruct (has_code k x); [discriminate|exact IH].
Qed.

Lemma select_last t r c :
  short_code r = c -> ~ In c (codes t) ->
  select_row (t ++ [r]) c = Some r.
Proof.
  intros <- H. rewrite select_app_none by now apply select_none_iff.
  unfold select_row. simpl. unfold has_code. now rewrite str_eqb_refl.
Qed.

(** The UPDATE as seen through a lookup. *)
Lemma select_update t c k (f : row -> row) :
  (forall r, short_code (f r) = short_code r) ->
  select_row (List.map (fun r => if has_code c r then f r else r) t) k
  = option_map (fun r => if has_code c r then f r else r)
      (select_row t k).
Proof.
  intros Hf. unfold select_row.
  induction t as [|x t IH]; simpl; [reflexivity|].
  assert (E : has_code k (if has_code c x then f x else x) = has_code k x).
  { unfold has_code at 1 3. destruct (has_code c x); [now rewrite Hf|reflexivity]. }
  rewrite E. destruct (has_code k x); [reflexivity|exact IH].
Qed.

(** The DELETE as seen through a lookup. *)
Lemma select_delete t c k :
  select_row (List.filter (fun r => negb (has_code c r)) t) k
  = if str_eqb k c then None else select_row t k.
Proof.
  unfold select_row. induction t as [|x t IH]; simpl.
  - now destruct (str_eqb k c).
  - destruct (has_code c x) eqn:Ec; simpl.
    + rewrite IH. destruct (str_eqb k c) eqn:Ek; [reflexivity|].
      destruct (has_code k x) eqn:Ekx; [|reflexivity].
      apply has_code_iff in Ec, Ekx. apply str_eqb_neq in Ek. congruence.
    + destruct (has_code k x) eqn:Ekx.
      * destruct (str_eqb k c) eqn:Ek; [|reflexivity].
        apply str_eqb_eq in Ek. subst k. congruence.
      * exact IH.
Qed.

Lemma update_last t r c :
  short_code r = c -> ~ In c (codes t) ->
  update_row (t ++ [r]) c
  = (true, t ++ [set_click_count r (plus_one (click_count r))]).
Proof.
  intros <- H. unfold update_row. f_equal.
  - apply Z.ltb_lt. apply rowcount_pos. rewrite codes_app.
    apply in_or_app. right. now left.
  - rewrite map_app.
    rewrite (update_absent t (short_code r)
               (fun x => set_click_count x (plus_one (click_count x)))) by exact H.
    simpl. unfold has_code. now rewrite str_eqb_refl.
Qed.

Lemma rowcount_present t c :
  (0 <? rowcount c t) = existsb (has_code c) t.
Proof.
  destruct (existsb (has_code c) t) eqn:E.
  - apply Z.ltb_lt, rowcount_pos. now apply existsb_has_code.
  - rewrite rowcount_zero; [reflexivity|].
    intros Hin. apply existsb_has_code in Hin. congruence.
Qed.

Lemma codes_delete_row t c : ~ In c (codes (snd (delete_row t c))).
Proof.
  unfold delete_row, codes. cbn [snd]. intros Hin.
  apply in_map_iff in Hin as [r [Hr Hin]].
  apply filter_In in Hin as [_ Hn]. apply negb_true_iff in Hn.
  apply has_code_iff in Hr. congruence.
Qed.


Lemma rowcount_unique t c :
  NoDup (codes t) ->
  rowcount c t = if existsb (has_code c) t then 1 else 0.
Proof.
  intros Hnd. destruct (existsb (has_code c) t) eqn:E.
  - unfold rowcount. induction t as [|r t IH]; [discriminate|].
    inversion Hnd as [|? ? Hnotin Hnd']; subst. simpl in *.
    destruct (has_code c r) eqn:Er.
    + apply has_code_iff in Er. subst c.
      fold (rowcount (short_code r) t).
      change (Z.of_nat (List.length (r :: List.filter (has_code (short_code r)) t)))
        with (Z.of_nat (S (List.length (List.filter (has_code (short_code r)) t)))).
      rewrite Nat2Z.inj_succ. fold (rowcount (short_code r) t).
      rewrite rowcount_zero by exact Hnotin. reflexivity.
    + simpl in E. apply IH; assumption.
  - apply rowcount_zero. intros Hin. apply existsb_has_code in Hin.
    congruence.
Qed.

Lemma select_listed t r :
  NoDup (codes t) -> In r t -> select_row t (short_code r) = Some r.
Proof.
  unfold select_row. induction t as [|x t IH]; intros Hnd Hin;
    [contradiction|].
  inversion Hnd as [|? ? Hnotin Hnd']; subst. simpl.
  destruct Hin as [->|Hin].
  - unfold has_code. now rewrite str_eqb_refl.
  - destruct (has_code (short_code r) x) eqn:E.
    + apply has_code_iff in E. exfalso. apply Hnotin. rewrite E.
      unfold codes. apply in_map. exact Hin.
    + now apply IH.
Qed.

Lemma has_code_set_click_count c r v :
  has_code c (set_click_count r v) = has_code c r.
Proof. reflexivity. Qed.

Lemma rowcount_update t c k (f : row -> row) :
  (forall r, short_code (f r) = short_code r) ->
  rowcount k (List.map (fun r => if has_code c r then f r else r) t)
  = rowcount k t.
Proof.
  intros Hf. unfold rowcount. f_equal.
  induction t as [|r t IH]; simpl; [reflexivity|].
  assert (E : has_code k (if has_code c r then f r else r) = has_code k r).
  { unfold has_code at 1 3. destruct (has_code c r); [now rewrite Hf|reflexivity]. }
  rewrite E. destruct (has_code k r); simpl; now rewrite IH.
Qed.

End Table.

(* ================================================================= *)
(** ** The click counter *)

Section Counter.

Lemma plus_one_small z :
  z + 1 <= int64_max -> plus_one (Integer z) = Integer (z + 1).
Proof.
  intros H. unfold plus_one.
  destruct (z + 1 <=? int64_max) eqn:E; [reflexivity|].
  apply Z.leb_gt in E. lia.
Qed.

Lemma plus_one_max : plus_one (Integer int64_max) = Real two63.
Proof. vm_compute. reflexivity. Qed.

Lemma plus_one_two63 : plus_one (Real two63) = Real two63.
Proof. vm_compute. reflexivity. Qed.

Lemma exact_two63 : exact (Real two63) = Fraction (2 ^ 63) 1.
Proof. vm_compute. reflexivity. Qed.

Lemma plus_one_ok v : count_ok v -> count_ok (plus_one v).
Proof.
  intros [[z [-> Hz]]| ->].
  - destruct (Z.eq_dec z int64_max) as [->|Hne].
    + right. apply plus_one_max.
    + left. exists (z + 1). rewrite plus_one_small by lia.
      split; [reflexivity|lia].
  - right. apply plus_one_two63.
Qed.

Lemma value_leb_int x y : value_leb (Integer x) (Integer y) = (x <=? y).
Proof. unfold value_leb. simpl. now rewrite !Z.mul_1_r. Qed.

Lemma value_leb_int_two63 x :
  value_leb (Integer x) (Real two63) = (x <=? 2 ^ 63).
Proof.
  unfold value_leb. rewrite exact_two63. cbn [exact number_leb].
  now rewrite !Z.mul_1_r.
Qed.

Lemma value_leb_two63_int x :
  value_leb (Real two63) (Integer x) = (2 ^ 63 <=? x).
Proof.
  unfold value_leb. rewrite exact_two63. cbn [exact number_leb].
  now rewrite !Z.mul_1_r.
Qed.

Lemma value_leb_two63 : value_leb (Real two63) (Real two63) = true.
Proof. vm_compute. reflexivity. Qed.

Lemma value_leb_refl v : count_ok v -> value_leb v v = true.
Proof.
  intros [[z [-> Hz]]| ->].
  - rewrite value_leb_int. apply Z.leb_refl.
  - apply value_leb_two63.
Qed.

Lemma value_leb_plus_one v : count_ok v -> value_leb v (plus_one v) = true.
Proof.
  intros [[z [-> Hz]]| ->].
  - destruct (Z.eq_dec z int64_max) as [->|Hne].
    + rewrite plus_one_max. vm_compute. reflexivity.
    + rewrite plus_one_small by lia. rewrite value_leb_int.
      apply Z.leb_le. lia.
  - rewrite plus_one_two63. apply value_leb_two63.
Qed.

Lemma value_leb_trans a b c :
  count_ok a -> count_ok b -> count_ok c ->
  value_leb a b = true -> value_leb b c = true -> value_leb a c = true.
Proof.
  unfold int64_max.
  intros [[x [-> Hx]]| ->] [[y [-> Hy]]| ->] [[z [-> Hz]]| ->];
    rewrite ?value_leb_int, ?value_leb_int_two63, ?value_leb_two63_int,
      ?value_leb_two63, ?Z.leb_le; intros; try reflexivity; lia.
Qed.

Lemma plus_one_count_after n : plus_one (count_after n) = count_after (S n).
Proof.
  unfold count_after. rewrite Nat2Z.inj_succ.
  destruct (Z.of_nat n <=? int64_max) eqn:E1.
  - apply Z.leb_le in E1.
    destruct (Z.succ (Z.of_nat n) <=? int64_max) eqn:E2.
    + apply Z.leb_le in E2. rewrite plus_one_small by lia.
      f_equal.
    + apply Z.leb_gt in E2.
      replace (Z.of_nat n) with int64_max by lia. apply plus_one_max.
  - apply Z.leb_gt in E1.
    destruct (Z.succ (Z.of_nat n) <=? int64_max) eqn:E2.
    + apply Z.leb_le in E2. lia.
    + apply plus_one_two63.
Qed.

End Counter.

(* ================================================================= *)
(** ** What a statement that runs does to the table *)

Section TableSteps.

Implicit Types (t : table) (r : row) (c k : str) (o : op).

Lemma table_step_unique t o : NoDup (codes t) -> NoDup (codes (table_step t o)).
Proof.
  intros H. destruct o as [c u now|c|c| |c|]; cbn [table_step]; try exact H.
  - unfold insert_row.
    destruct (existsb (has_code c) t) eqn:E; cbn [snd]; [exact H|].
    rewrite codes_app. simpl.
    apply NoDup_app; [exact H|repeat constructor; simpl; tauto|].
    intros x Hx [<-|[]]. apply existsb_has_code in Hx. congruence.
  - rewrite codes_update_row. exact H.
  - unfold delete_row. cbn [snd]. now apply NoDup_codes_filter.
Qed.

Lemma table_step_counts_ok t o : counts_ok t -> counts_ok (table_step t o).
Proof.
  unfold counts_ok. intros H.
  destruct o as [c u now|c|c| |c|]; cbn [table_step]; try exact H.
  - unfold insert_row.
    destruct (existsb (has_code c) t); cbn [snd]; [exact H|].
    rewrite Forall_forall in *. intros r Hin.
    apply in_app_or in Hin as [Hin|[<-|[]]]; [now apply H|].
    left. exists 0. split; [reflexivity|unfold int64_max; lia].
  - unfold update_row. cbn [snd].
    rewrite Forall_forall in *. intros r Hin.
    apply in_map_iff in Hin as [x [<- Hin]].
    destruct (has_code c x); [|now apply H].
    cbn [set_click_count click_count]. apply plus_one_ok. now apply H.
  - unfold delete_row. cbn [snd]. apply Forall_forall.
    intros r Hin. apply filter_In in Hin as [Hin _].
    revert r Hin. now apply Forall_forall.
Qed.

Lemma select_count_ok t k r :
  counts_ok t -> select_row t k = Some r -> count_ok (click_count r).
Proof.
  intros H Hget. apply select_some_in in Hget.
  unfold counts_ok in H. rewrite Forall_forall in H. now apply H.
Qed.

Lemma same_mapping_refl r : same_mapping r r.
Proof. repeat split. Qed.

Lemma same_mapping_trans r1 r2 r3 :
  same_mapping r1 r2 -> same_mapping r2 r3 -> same_mapping r1 r3.
Proof. unfold same_mapping. intuition congruence. Qed.

(** One statement that runs, seen from a row that is in the table. *)
Lemma table_step_frame t o k r :
  counts_ok t ->
  select_row t k = Some r ->
  (o = Delete k -> select_row (table_step t o) k = None)
  /\ (o <> Delete k ->
      exists r',
        select_row (table_step t o) k = Some r'
        /\ same_mapping r r'
        /\ value_leb (click_count r) (click_count r') = true
        /\ (o <> RecordVisit k -> r' = r)).
Proof.
  intros Hok Hget.
  assert (Hr : count_ok (click_count r)) by (eapply select_count_ok; eauto).
  assert (Hsame : exists r', Some r = Some r' /\ same_mapping r r'
            /\ value_leb (click_count r) (click_count r') = true
            /\ (o <> RecordVisit k -> r' = r)).
  { exists r. repeat split. now apply value_leb_refl. }
  split.
  - intros ->. cbn [table_step]. unfold delete_row. cbn [snd].
    rewrite select_delete. now rewrite str_eqb_refl.
  - intros Hnd. destruct o as [c u now|c|c| |c|]; cbn [table_step].
    + unfold insert_row.
      destruct (existsb (has_code c) t); cbn [snd].
      * rewrite Hget. exact Hsame.
      * rewrite (select_app_some _ _ _ _ Hget). exact Hsame.
    + rewrite Hget. exact Hsame.
    + unfold update_row. cbn [snd].
      rewrite select_update by reflexivity. rewrite Hget. cbn [option_map].
      destruct (has_code c r) eqn:Ec.
      * eexists. split; [reflexivity|]. split; [repeat split|].
        cbn [set_click_count click_count].
        split; [now apply value_leb_plus_one|].
        intros Hne. exfalso. apply Hne. f_equal.
        apply has_code_iff in Ec. apply select_some_code in Hget. congruence.
      * exists r. repeat split. now apply value_leb_refl.
    + rewrite Hget. exact Hsame.
    + unfold delete_row. cbn [snd]. rewrite select_delete.
      destruct (str_eqb k c) eqn:Ek.
      * apply str_eqb_eq in Ek. subst c. contradiction.
      * rewrite Hget. exact Hsame.
    + rewrite Hget. exact Hsame.
Qed.

End TableSteps.

(* ================================================================= *)
(** ** The methods of the store *)

Section Store.

Implicit Types (s : store) (t : table) (r : row) (c k u : str) (o : op).

Lemma unlocked_eta s :
  write_locked s = false -> {| rows := rows s; write_locked := false |} = s.
Proof. destruct s as [t l]. simpl. now intros ->. Qed.

Lemma get_encodable s c :
  encodable c = true -> get_url_mapping s c = select_row (rows s) c.
Proof. intros H. unfold get_url_mapping. now rewrite H. Qed.

Lemma get_some_inv s c r :
  get_url_mapping s c = Some r ->
  encodable c = true /\ select_row (rows s) c = Some r.
Proof.
  unfold get_url_mapping. destruct (encodable c); [auto|discriminate].
Qed.

Lemma get_none_absent s c :
  ~ In c (codes (rows s)) -> get_url_mapping s c = None.
Proof.
  intros H. unfold get_url_mapping.
  destruct (encodable c); [now apply select_none_iff|reflexivity].
Qed.

Lemma get_none_inv s c :
  encodable c = true -> get_url_mapping s c = None ->
  ~ In c (codes (rows s)).
Proof. intros He H. rewrite get_encodable in H by exact He. now apply select_none_iff. Qed.

(** The three methods that write, where their statement runs. *)
Lemma create_runs s c u now :
  encodable c = true -> encodable u = true -> write_locked s = false ->
  create_url_mapping s c u now
  = if existsb (has_code c) (rows s)
    then (false, {| rows := rows s; write_locked := true |})
    else (true,
          {| rows := rows s ++ [{| short_code := c; original_url := u;
                                   created_at := now;
                                   click_count := Integer 0 |}];
             write_locked := false |}).
Proof.
  intros Hc Hu Hl. unfold create_url_mapping, insert_row.
  rewrite Hc, Hu, Hl. cbn [andb negb].
  now destruct (existsb (has_code c) (rows s)).
Qed.

Lemma increment_runs s c :
  encodable c = true -> write_locked s = false ->
  increment_click_count s c
  = (fst (update_row (rows s) c),
     {| rows := snd (update_row (rows s) c); write_locked := false |}).
Proof.
  intros Hc Hl. unfold increment_click_count. rewrite Hc, Hl. reflexivity.
Qed.

Lemma delete_runs s c :
  encodable c = true -> write_locked s = false ->
  delete_url s c
  = (fst (delete_row (rows s) c),
     {| rows := snd (delete_row (rows s) c); write_locked := false |}).
Proof.
  intros Hc Hl. unfold delete_url. rewrite Hc, Hl. reflexivity.
Qed.

(** And where it does not: the parameter cannot be bound, or the database
    is locked. *)
Lemma create_fails s c u now :
  encodable c && encodable u = false \/ write_locked s = true ->
  create_url_mapping s c u now = (false, s).
Proof.
  unfold create_url_mapping. intros [H|H].
  - now rewrite H.
  - rewrite H. now destruct (encodable c && encodable u).
Qed.

Lemma increment_fails s c :
  encodable c = false \/ write_locked s = true ->
  increment_click_count s c = (false, s).
Proof.
  unfold increment_click_count. intros [H|H].
  - now rewrite H.
  - rewrite H. now destruct (encodable c).
Qed.

Lemma delete_fails s c :
  encodable c = false \/ write_locked s = true ->
  delete_url s c = (false, s).
Proof.
  unfold delete_url. intros [H|H].
  - now rewrite H.
  - rewrite H. now destruct (encodable c).
Qed.

Lemma create_true_inv s c u now s' :
  create_url_mapping s c u now = (true, s') ->
  encodable c = true /\ encodable u = true /\ write_locked s = false
  /\ ~ In c (codes (rows s))
  /\ s' = {| rows := rows s ++ [{| short_code := c; original_url := u;
                                   created_at := now;
                                   click_count := Integer 0 |}];
             write_locked := false |}.
Proof.
  intros H.
  destruct (encodable c) eqn:Hc;
    [|rewrite create_fails in H by (left; now rewrite Hc); discriminate].
  destruct (encodable u) eqn:Hu;
    [|rewrite create_fails in H by (left; now rewrite Hc, Hu); discriminate].
  destruct (write_locked s) eqn:Hl;
    [rewrite create_fails in H by (now right); discriminate|].
  rewrite create_runs in H by assumption.
  destruct (existsb (has_code c) (rows s)) eqn:E; [discriminate|].
  injection H as <-. repeat split.
  intros Hin. apply existsb_has_code in Hin. congruence.
Qed.

(** A creation that is not answered [True] leaves the rows. *)
Lemma create_false_rows s c u now :
  fst (create_url_mapping s c u now) = false ->
  rows (snd (create_url_mapping s c u now)) = rows s.
Proof.
  unfold create_url_mapping, insert_row.
  destruct (negb (encodable c && encodable u)); [reflexivity|].
  destruct (write_locked s); [reflexivity|].
  now destruct (existsb (has_code c) (rows s)).
Qed.

(** The rows after an operation: as they were, or as its statement leaves
    them. *)
Lemma step_rows s o :
  rows (step s o) = rows s \/ rows (step s o) = table_step (rows s) o.
Proof.
  destruct o as [c u now|c|c| |c|]; cbn [step table_step]; auto.
  - unfold create_url_mapping.
    destruct (negb (encodable c && encodable u)); [now left|].
    destruct (write_locked s); [now left|].
    destruct (insert_row (rows s) c u now) as [[|] t] eqn:E; cbn [snd rows].
    + right. reflexivity.
    + now left.
  - unfold increment_click_count.
    destruct (negb (encodable c)); [now left|].
    destruct (write_locked s); [now left|].
    destruct (update_row (rows s) c) as [b t]. right. reflexivity.
  - unfold delete_url.
    destruct (negb (encodable c)); [now left|].
    destruct (write_locked s); [now left|].
    destruct (delete_row (rows s) c) as [b t]. right. reflexivity.
Qed.

Lemma step_unique s o :
  NoDup (codes (rows s)) -> NoDup (codes (rows (step s o))).
Proof.
  intros H. destruct (step_rows s o) as [-> | ->];
    [exact H|now apply table_step_unique].
Qed.

Lemma run_app ops1 ops2 s : run (ops1 ++ ops2) s = run ops2 (run ops1 s).
Proof. apply fold_left_app. Qed.

Lemma run_unique ops s :
  NoDup (codes (rows s)) -> NoDup (codes (rows (run ops s))).
Proof.
  revert s. induction ops as [|o ops IH]; simpl; intros s H; [exact H|].
  apply IH. now apply step_unique.
Qed.

Lemma step_counts_ok s o :
  counts_ok (rows s) -> counts_ok (rows (step s o)).
Proof.
  intros H. destruct (step_rows s o) as [-> | ->];
    [exact H|now apply table_step_counts_ok].
Qed.

Lemma run_counts_ok ops s :
  counts_ok (rows s) -> counts_ok (rows (run ops s)).
Proof.
  revert s. induction ops as [|o ops IH]; simpl; intros s H; [exact H|].
  apply IH. now apply step_counts_ok.
Qed.

(** C6. A code that is not in the table, well-formed or not: the lookup
    finds nothing, and recording a visit returns [False] and leaves the
    store as it was, row for row. *)
Theorem absent_code_not_found s c :
  ~ In c (codes (rows s)) ->
  get_url_mapping s c = None
  /\ increment_click_count s c = (false, s).
Proof.
  intros H. split; [now apply get_none_absent|].
  destruct (encodable c) eqn:Hc; [|apply increment_fails; now left].
  destruct (write_locked s) eqn:Hl; [apply increment_fails; now right|].
  rewrite increment_runs by assumption. unfold update_row. cbn [fst snd].
  rewrite rowcount_zero by exact H. rewrite update_absent by exact H.
  now rewrite unlocked_eta.
Qed.

Lemma absent_code_not_found_witness :
  get_url_mapping init_db (lit "zzzzzz") = None
  /\ increment_click_count init_db (lit "zzzzzz") = (false, init_db).
Proof. apply absent_code_not_found. simpl. tauto. Defined.

(** C2. In every store reached from the empty one by creations, lookups,
    recorded visits and deletions (and runs of the garbage collector), no
    two rows have the same [short_code]; there, creating a mapping under a
    code that is taken returns [False] and leaves the rows, and so the row of
    that code, as they were. *)
Theorem short_codes_unique (ops : list op) :
  NoDup (codes (rows (run ops init_db)))
  /\ forall c u now r,
       get_url_mapping (run ops init_db) c = Some r ->
       fst (create_url_mapping (run ops init_db) c u now) = false
       /\ rows (snd (create_url_mapping (run ops init_db) c u now))
          = rows (run ops init_db)
       /\ get_url_mapping
            (snd (create_url_mapping (run ops init_db) c u now)) c = Some r.
Proof.
  split; [apply run_unique; constructor|].
  intros c u now r H. apply get_some_inv in H as [Hc H].
  assert (Hin : existsb (has_code c) (rows (run ops init_db)) = true).
  { apply existsb_has_code.
    destruct (in_dec (list_eq_dec Z.eq_dec) c (codes (rows (run ops init_db))))
      as [Hin|Hn]; [exact Hin|].
    apply select_none_iff in Hn. congruence. }
  assert (Hf : fst (create_url_mapping (run ops init_db) c u now) = false).
  { unfold create_url_mapping, insert_row. rewrite Hin.
    destruct (negb (encodable c && encodable u)); [reflexivity|].
    now destruct (write_locked (run ops init_db)). }
  split; [exact Hf|]. pose proof (create_false_rows _ _ _ _ Hf) as Hrows.
  split; [exact Hrows|]. rewrite get_encodable by exact Hc. now rewrite Hrows.
Qed.

End Store.
(* ================================================================= *)
(** ** Lookups after recorded visits *)

Section Frame.

Implicit Types (s : store) (t : table) (r : row) (c k u : str).

Lemma record_visits_last n t c u now m :
  encodable c = true ->
  ~ In c (codes t) ->
  record_visits n c
    {| rows := t ++ [{| short_code := c; original_url := u;
                        created_at := now; click_count := count_after m |}];
       write_locked := false |}
  = (true,
     {| rows := t ++ [{| short_code := c; original_url := u;
                         created_at := now;
                         click_count := count_after (m + n) |}];
        write_locked := false |}).
Proof.
  intros Hc H. revert m. induction n as [|n IH]; intros m.
  - simpl. now rewrite Nat.add_0_r.
  - cbn [record_visits].
    rewrite increment_runs by (exact Hc || reflexivity). cbn [rows].
    rewrite (update_last t
               {| short_code := c; original_url := u; created_at := now;
                  click_count := count_after m |} c eq_refl H).
    unfold set_click_count. cbn [fst snd short_code original_url created_at
                                 click_count].
    rewrite plus_one_count_after, IH.
    now rewrite Nat.add_succ_r.
Qed.

(** A new mapping and [n] recorded visits: the row that a lookup of the code
    returns. *)
Lemma create_then_visits s c u now s' n :
  create_url_mapping s c u now = (true, s') ->
  fst (record_visits n c s') = true
  /\ get_url_mapping (snd (record_visits n c s')) c
     = Some {| short_code := c; original_url := u; created_at := now;
               click_count := count_after n |}.
Proof.
  intros H. apply create_true_inv in H as [Hc [_ [_ [Hnew ->]]]].
  change (Integer 0) with (count_after 0).
  rewrite record_visits_last by assumption. simpl fst. simpl snd.
  split; [reflexivity|].
  rewrite get_encodable by exact Hc. cbn [rows].
  apply select_last; [reflexivity|exact Hnew].
Qed.

(** C3, up to the end of the INTEGER range. After a successful creation and
    [n] recorded visits in a row, all of which succeed, the lookup of the
    code reports a click count equal to [n], for every [n] up to two to the
    63: an INTEGER up to the largest one, and the REAL of that value at two
    to the 63 itself. *)
Theorem click_count_after_visits s c u now s' (n : nat) :
  create_url_mapping s c u now = (true, s') ->
  Z.of_nat n <= 2 ^ 63 ->
  fst (record_visits n c s') = true
  /\ exists r,
       get_url_mapping (snd (record_visits n c s')) c = Some r
       /\ eq_int (click_count r) (Z.of_nat n) = true
       /\ (Z.of_nat n <= int64_max -> click_count r = Integer (Z.of_nat n)).
Proof.
  intros H Hn. destruct (create_then_visits s c u now s' n H) as [Hok Hget].
  split; [exact Hok|]. eexists. split; [exact Hget|].
  cbn [click_count]. unfold count_after.
  destruct (Z.of_nat n <=? int64_max) eqn:E.
  - split; [|reflexivity]. unfold eq_int. simpl. apply Z.eqb_refl.
  - apply Z.leb_gt in E. unfold int64_max in E.
    replace (Z.of_nat n) with (2 ^ 63) by lia.
    split; [vm_compute; reflexivity|]. unfold int64_max. lia.
Qed.

Lemma click_count_after_visits_witness :
  fst (record_visits 3 (lit "abc123")
         (snd (create_url_mapping init_db (lit "abc123")
                 (lit "https://example.com") 0))) = true
  /\ exists r,
       get_url_mapping
         (snd (record_visits 3 (lit "abc123")
                 (snd (create_url_mapping init_db (lit "abc123")
                         (lit "https://example.com") 0))))
         (lit "abc123") = Some r
       /\ eq_int (click_count r) (Z.of_nat 3) = true
       /\ (Z.of_nat 3 <= int64_max -> click_count r = Integer (Z.of_nat 3)).
Proof.
  apply (click_count_after_visits init_db (lit "abc123")
           (lit "https://example.com") 0); [reflexivity|].
  simpl. lia.
Defined.

(** Past the INTEGER range the count is lost: after two to the 63 plus one
    recorded visits of a new mapping, all successful, the counter the lookup
    returns is the REAL two to the 63, which is not the number of visits. *)
Lemma click_count_overflow :
  create_url_mapping init_db (lit "abc123") (lit "https://example.com") 0
  = (true, {| rows := [{| short_code := lit "abc123";
                          original_url := lit "https://example.com";
                          created_at := 0; click_count := Integer 0 |}];
              write_locked := false |})
  /\ fst (record_visits past_int64 (lit "abc123")
            {| rows := [{| short_code := lit "abc123";
                           original_url := lit "https://example.com";
                           created_at := 0; click_count := Integer 0 |}];
               write_locked := false |}) = true
  /\ exists r,
       get_url_mapping
         (snd (record_visits past_int64 (lit "abc123")
                 {| rows := [{| short_code := lit "abc123";
                                original_url := lit "https://example.com";
                                created_at := 0; click_count := Integer 0 |}];
                    write_locked := false |}))
         (lit "abc123") = Some r
       /\ click_count r = Real two63
       /\ eq_int (click_count r) (Z.of_nat past_int64) = false.
Proof.
  assert (E : Z.of_nat past_int64 = 2 ^ 63 + 1)
    by (unfold past_int64; apply Z2Nat.id; lia).
  generalize dependent past_int64. intros n E.
  split; [reflexivity|].
  destruct (create_then_visits init_db (lit "abc123")
              (lit "https://example.com") 0 _ n eq_refl) as [Hok Hget].
  split; [exact Hok|]. eexists. split; [exact Hget|].
  cbn [click_count]. unfold count_after. rewrite E.
  split; vm_compute; reflexivity.
Qed.

End Frame.

(* ================================================================= *)
(** ** What an operation may change *)

Section Immutability.

Implicit Types (s : store) (t : table) (r : row) (c k : str) (o : op).

Lemma get_count_ok s k r :
  counts_ok (rows s) -> get_url_mapping s k = Some r ->
  count_ok (click_count r).
Proof.
  intros H Hget. apply get_some_inv in Hget as [_ Hget].
  eapply select_count_ok; eauto.
Qed.

(** One operation other than the deletion of the code, seen from a mapping
    that is in the store. *)
Lemma step_frame s o k r :
  counts_ok (rows s) ->
  get_url_mapping s k = Some r ->
  o <> Delete k ->
  exists r',
    get_url_mapping (step s o) k = Some r'
    /\ same_mapping r r'
    /\ value_leb (click_count r) (click_count r') = true
    /\ (o <> RecordVisit k -> r' = r).
Proof.
  intros Hok Hget Hnd.
  assert (Hr : count_ok (click_count r)) by (eapply get_count_ok; eauto).
  apply get_some_inv in Hget as [Hk Hget].
  rewrite get_encodable by exact Hk.
  destruct (step_rows s o) as [-> | ->].
  - exists r. split; [exact Hget|]. split; [apply same_mapping_refl|].
    split; [now apply value_leb_refl|reflexivity].
  - destruct (table_step_frame (rows s) o k r Hok Hget) as [_ H].
    now apply H.
Qed.

(** The deletion of the code: the row is gone when the DELETE runs, and the
    store is as it was when the database is locked. *)
Lemma delete_frame s k r :
  get_url_mapping s k = Some r ->
  (write_locked s = false -> get_url_mapping (step s (Delete k)) k = None)
  /\ (write_locked s = true -> step s (Delete k) = s).
Proof.
  intros Hget. apply get_some_inv in Hget as [Hk Hget]. cbn [step]. split.
  - intros Hl. rewrite delete_runs by assumption. cbn [snd].
    apply get_none_absent. cbn [rows]. apply codes_delete_row.
  - intros Hl. rewrite delete_fails by now right. reflexivity.
Qed.

(** A sequence of operations without a deletion of the code. *)
Lemma run_frame ops s k r :
  counts_ok (rows s) ->
  get_url_mapping s k = Some r ->
  ~ In (Delete k) ops ->
  exists r',
    get_url_mapping (run ops s) k = Some r'
    /\ same_mapping r r'
    /\ value_leb (click_count r) (click_count r') = true.
Proof.
  revert s r. induction ops as [|o ops IH]; intros s r Hok Hget Hnd.
  - exists r. simpl. split; [exact Hget|]. split; [apply same_mapping_refl|].
    apply value_leb_refl. eapply get_count_ok; eauto.
  - simpl. destruct (step_frame s o k r Hok Hget) as [r1 [Hget1 [Hs1 [Hle1 _]]]].
    { intros ->. apply Hnd. now left. }
    assert (Hok1 : counts_ok (rows (step s o))) by now apply step_counts_ok.
    destruct (IH (step s o) r1 Hok1 Hget1) as [r2 [Hget2 [Hs2 Hle2]]].
    { intros Hin. apply Hnd. now right. }
    exists r2. split; [exact Hget2|].
    split; [eapply same_mapping_trans; eauto|].
    apply (value_leb_trans _ (click_count r1)); try assumption.
    + exact (get_count_ok s k r Hok Hget).
    + exact (get_count_ok _ k r1 Hok1 Hget1).
    + exact (get_count_ok _ k r2 (run_counts_ok ops _ Hok1) Hget2).
Qed.

(** C7. For a mapping of a store reached from the empty one, and any
    operation: a deletion of its code removes the whole row when its DELETE
    runs, and leaves the store as it was when the database is locked; any
    other operation leaves a row under the code with the same [short_code],
    [original_url] and [created_at] and a click count that is not smaller,
    and the row is the very same unless the operation records a visit of
    that code (so a visit of another code changes nothing here). Over any
    sequence of operations that does not delete the code, the three columns
    stay and the click count does not decrease. *)
Theorem mapping_only_counts_up (ops : list op) (k : str) (r : row) :
  get_url_mapping (run ops init_db) k = Some r ->
  (forall o,
      (o = Delete k ->
       (write_locked (run ops init_db) = false ->
        get_url_mapping (step (run ops init_db) o) k = None)
       /\ (write_locked (run ops init_db) = true ->
           step (run ops init_db) o = run ops init_db))
      /\ (o <> Delete k ->
          exists r',
            get_url_mapping (step (run ops init_db) o) k = Some r'
            /\ same_mapping r r'
            /\ value_leb (click_count r) (click_count r') = true
            /\ (o <> RecordVisit k -> r' = r)))
  /\ (forall ops',
         ~ In (Delete k) ops' ->
         exists r',
           get_url_mapping (run ops' (run ops init_db)) k = Some r'
           /\ same_mapping r r'
           /\ value_leb (click_count r) (click_count r') = true).
Proof.
  intros Hget.
  assert (Hok : counts_ok (rows (run ops init_db)))
    by (apply run_counts_ok; constructor).
  split.
  - intros o. split.
    + intros ->. now apply (delete_frame _ k r).
    + now apply step_frame.
  - intros ops' Hnd. now apply run_frame.
Qed.

End Immutability.
(* ================================================================= *)
(** ** Generated codes *)

Section Generator.

Lemma characters_alnum :
  forallb is_ascii_alnum characters = true.
Proof. vm_compute. reflexivity. Qed.

Lemma choice_characters g :
  is_ascii_alnum (fst (choice characters g)) = true
  /\ snd (choice characters g) = {| tape := tape g; cursor := S (cursor g) |}.
Proof.
  split; [|reflexivity]. unfold choice. cbn [fst].
  pose proof characters_alnum as H. rewrite forallb_forall in H.
  apply H. apply nth_In. apply Nat.mod_upper_bound. discriminate.
Qed.

Lemma generate_short_code_spec n g :
  List.length (fst (generate_short_code n g)) = n
  /\ forallb is_ascii_alnum (fst (generate_short_code n g)) = true
  /\ snd (generate_short_code n g)
     = {| tape := tape g; cursor := (cursor g + n)%nat |}.
Proof.
  revert g. induction n as [|n IH]; intros g.
  - simpl. repeat split. destruct g; simpl. now rewrite Nat.add_0_r.
  - cbn [generate_short_code].
    destruct (choice characters g) as [c g1] eqn:Ec.
    destruct (choice_characters g) as [Hc Hg1]. rewrite Ec in Hc, Hg1.
    cbn [fst snd] in Hc, Hg1.
    destruct (generate_short_code n g1) as [rest g2] eqn:Er.
    destruct (IH g1) as [Hlen [Hall Hg2]]. rewrite Er in Hlen, Hall, Hg2.
    cbn [fst snd] in *. subst g1 g2. cbn [tape cursor].
    repeat split.
    + simpl. now rewrite Hlen.
    + simpl. now rewrite Hc, Hall.
    + f_equal. lia.
Qed.

(** On ASCII [str.isalnum] is membership in [A-Za-z0-9]. *)
Lemma isalnum_char_ascii U c : is_ascii_alnum c = true -> isalnum_char U c = true.
Proof.
  intros H. unfold isalnum_char.
  assert (E : (c <? 0x80) = true).
  { apply Z.ltb_lt. unfold is_ascii_alnum, is_ascii_alpha, is_ascii_upper,
      is_ascii_lower, is_ascii_digit, in_range in H.
    rewrite !orb_true_iff, !andb_true_iff, !Z.leb_le in H. lia. }
  now rewrite E.
Qed.

Lemma validate_generated U code :
  List.length code = 6%nat -> forallb is_ascii_alnum code = true ->
  validate_short_code U code = true.
Proof.
  intros Hlen Hall. unfold validate_short_code, len. rewrite Hlen.
  destruct code as [|c code]; [discriminate|]. cbn [is_empty].
  change (negb (Z.of_nat 6 =? 6)) with false. cbv iota.
  unfold isalnum. cbn [is_empty negb andb].
  rewrite forallb_forall in *. intros x Hx.
  apply isalnum_char_ascii. now apply Hall.
Qed.

(** The loop of [generate_unique_short_code]: it draws [length] numbers for
    each of at most [max_attempts] codes; a code it returns is free, has
    [length] characters and is made of ASCII letters and digits. *)
Lemma generate_unique_spec {A} (get : str -> option A) len m g :
  tape (snd (generate_unique_short_code get len m g)) = tape g
  /\ (exists k, (k <= m)%nat
                /\ cursor (snd (generate_unique_short_code get len m g))
                   = (cursor g + len * k)%nat)
  /\ (forall code,
         fst (generate_unique_short_code get len m g) = Some code ->
         get code = None
         /\ List.length code = len
         /\ forallb is_ascii_alnum code = true).
Proof.
  revert g. induction m as [|m IH]; intros g.
  - simpl. split; [reflexivity|]. split; [|discriminate].
    exists 0%nat. split; [lia|]. lia.
  - cbn [generate_unique_short_code].
    destruct (generate_short_code len g) as [code g1] eqn:Eg.
    destruct (generate_short_code_spec len g) as [Hlen [Hall Hg1]].
    rewrite Eg in Hlen, Hall, Hg1. cbn [fst snd] in *.
    destruct (get code) as [a|] eqn:Eget.
    + destruct (IH g1) as [Ht [[k [Hk Hc]] Hsome]].
      split; [rewrite Ht; now subst g1|].
      split; [|exact Hsome].
      exists (S k). split; [lia|]. rewrite Hc. subst g1. cbn [cursor]. lia.
    + cbn [fst snd]. split; [now subst g1|]. split.
      * exists 1%nat. split; [lia|]. subst g1. cbn [cursor]. lia.
      * intros c [= <-]. auto.
Qed.

(** When every candidate is taken the loop gives up. *)
Lemma generate_unique_exhausted {A} (get : str -> option A) len m g :
  (forall code, In code (candidates len m g) -> get code <> None) ->
  fst (generate_unique_short_code get len m g) = None.
Proof.
  revert g. induction m as [|m IH]; intros g H; [reflexivity|].
  cbn [generate_unique_short_code candidates] in *.
  destruct (generate_short_code len g) as [code g1].
  destruct (get code) eqn:Eget.
  - apply IH. intros c Hc. apply H. now right.
  - exfalso. apply (H code); [now left|exact Eget].
Qed.

End Generator.
(* ================================================================= *)
(** ** The handlers *)

Section Handlers.

Variable U : unicode_db.

(** A string of ASCII letters and digits can be bound as a parameter. *)
Lemma ascii_alnum_encodable code :
  forallb is_ascii_alnum code = true -> encodable code = true.
Proof.
  unfold encodable. rewrite !forallb_forall. intros H c Hc.
  specialize (H c Hc).
  unfold is_ascii_alnum, is_ascii_alpha, is_ascii_upper, is_ascii_lower,
    is_ascii_digit, in_range in *.
  rewrite !orb_true_iff, !andb_true_iff, !Z.leb_le in H.
  apply negb_true_iff, andb_false_iff.
  rewrite !Z.leb_gt. lia.
Qed.

Lemma candidates_alnum len m g code :
  In code (candidates len m g) -> forallb is_ascii_alnum code = true.
Proof.
  revert g. induction m as [|m IH]; intros g; [contradiction|].
  cbn [candidates].
  destruct (generate_short_code len g) as [c g1] eqn:Eg.
  destruct (generate_short_code_spec len g) as [_ [Hall _]].
  rewrite Eg in Hall. cbn [fst] in Hall.
  intros [<-|Hin]; [exact Hall|]. now apply (IH g1).
Qed.

(** What a 201 answer of [shorten_url] tells about the request and the new
    state. *)
Lemma shorten_url_created url now w code ou su w' :
  shorten_url U (Some (JStr url)) now w = (Created201 code ou su, w') ->
  is_valid_url U url = true
  /\ ou = sanitize_url url
  /\ su = lit "http://localhost:5000/" ++ code
  /\ List.length code = 6%nat
  /\ forallb is_ascii_alnum code = true
  /\ ~ In code (codes (rows (db w)))
  /\ write_locked (db w) = false
  /\ encodable (sanitize_url url) = true
  /\ db w'
     = {| rows := rows (db w)
                  ++ [{| short_code := code;
                         original_url := sanitize_url url;
                         created_at := now; click_count := Integer 0 |}];
          write_locked := false |}.
Proof.
  unfold shorten_url.
  destruct (is_valid_url U url) eqn:Ev; cbn [negb]; [|discriminate].
  destruct (generate_unique_short_code (get_url_mapping (db w))
              default_length default_max_attempts (random_state w))
    as [[c|] g] eqn:Eg; [|discriminate].
  destruct (generate_unique_spec (get_url_mapping (db w)) default_length
              default_max_attempts (random_state w)) as [_ [_ Hsome]].
  rewrite Eg in Hsome. destruct (Hsome c eq_refl) as [_ [Hlen Hall]].
  destruct (create_url_mapping (db w) c (sanitize_url url) now)
    as [[|] s1] eqn:Ec; cbn [negb]; [|discriminate].
  apply create_true_inv in Ec as [_ [Hu [Hl [Hfree ->]]]].
  intros [= <- <- <- <-]. cbn [db]. repeat split; assumption.
Qed.

(** A redirect of a code that is there answers with the stored URL and
    calls [increment_click_count] for that code. *)
Lemma redirect_found code w r :
  validate_short_code U code = true ->
  get_url_mapping (db w) code = Some r ->
  redirect_to_original U code w
  = (Redirect302 (original_url r),
     {| db := snd (increment_click_count (db w) code);
        random_state := random_state w |}).
Proof.
  intros Hv Hget. unfold redirect_to_original. rewrite Hv, Hget.
  cbn [negb]. now destruct (increment_click_count (db w) code).
Qed.

(** The scenario of the specification with the scheme written out: the
    mapping for [http://github.com] is stored under a code of six ASCII
    letters and digits, the redirect of that code goes to that URL, and the
    statistics after it count one click. *)
Lemma end_to_end_with_scheme now w code ou su w1 :
  shorten_url U (Some (JStr (lit "http://github.com"))) now w
  = (Created201 code ou su, w1) ->
  ou = lit "http://github.com"
  /\ List.length code = 6%nat
  /\ forallb is_ascii_alnum code = true
  /\ fst (redirect_to_original U code w1)
     = Redirect302 (lit "http://github.com")
  /\ fst (get_url_stats U code (snd (redirect_to_original U code w1)))
     = Stats200 code (lit "http://github.com") (Integer 1) now.
Proof.
  intros H. apply shorten_url_created in H
    as [_ [-> [_ [Hlen [Hall [Hfree [_ [_ Hdb]]]]]]]].
  change (sanitize_url (lit "http://github.com")) with (lit "http://github.com") in *.
  pose proof (validate_generated U code Hlen Hall) as Hv.
  pose proof (ascii_alnum_encodable code Hall) as Hc.
  assert (Hget : get_url_mapping (db w1) code
                 = Some {| short_code := code;
                           original_url := lit "http://github.com";
                           created_at := now; click_count := Integer 0 |}).
  { rewrite Hdb, get_encodable by exact Hc. now apply select_last. }
  rewrite (redirect_found code w1 _ Hv Hget). cbn [fst snd original_url].
  repeat split; try assumption.
  unfold get_url_stats. rewrite Hv. cbn [negb db].
  rewrite Hdb, increment_runs by (exact Hc || reflexivity). cbn [rows].
  rewrite (update_last (rows (db w))
             {| short_code := code; original_url := lit "http://github.com";
                created_at := now; click_count := Integer 0 |}
             code eq_refl Hfree).
  cbn [snd]. rewrite get_encodable by exact Hc. cbn [rows].
  rewrite select_last; [reflexivity|reflexivity|exact Hfree].
Qed.

(** What the order of the two calls lets through: a URL whose scheme is in
    capitals passes the validation, which ignores case, and is then given a
    second scheme by [sanitize_url], which does not; the handler answers 201
    and stores a URL that [is_valid_url] itself rejects. *)
Lemma shorten_url_stores_unvalidated now :
  fst (shorten_url U (Some (JStr (lit "HTTP://EXAMPLE.COM"))) now fresh_world)
  = Created201 (lit "aaaaaa") (lit "http://HTTP://EXAMPLE.COM")
      (lit "http://localhost:5000/aaaaaa")
  /\ is_valid_url U (lit "http://HTTP://EXAMPLE.COM") = false.
Proof. split; vm_compute; reflexivity. Qed.

Lemma startswith_nonempty s p :
  p <> [] -> startswith s p = true -> is_empty s = false.
Proof. destruct p; [congruence|]. destruct s; simpl; congruence. Qed.

(** A trimmed URL that has its scheme is stored as it is. *)
Lemma sanitize_url_fixed url :
  startswith url (lit "http://") || startswith url (lit "https://") = true ->
  strip url = url ->
  sanitize_url url = url.
Proof.
  intros Hp Hs. unfold sanitize_url. cbv zeta. rewrite Hs, Hp.
  assert (E : is_empty url = false).
  { apply orb_true_iff in Hp as [Hp|Hp];
      eapply startswith_nonempty; try exact Hp; discriminate. }
  rewrite E. reflexivity.
Qed.

(** C4. Creation, then lookup. For a URL with its [http://] or [https://]
    scheme and no whitespace around it: when the creation succeeds, the
    lookup of the returned code finds the mapping of that code, whose
    [original_url] is the submitted URL, character for character, and whose
    click count is 0. *)
Theorem create_get_round_trip url now w code ou su w' :
  startswith url (lit "http://") || startswith url (lit "https://") = true ->
  strip url = url ->
  shorten_url U (Some (JStr url)) now w = (Created201 code ou su, w') ->
  ou = url
  /\ exists r,
       get_url_mapping (db w') code = Some r
       /\ short_code r = code
       /\ original_url r = url
       /\ click_count r = Integer 0.
Proof.
  intros Hp Hs H. apply shorten_url_created in H
    as [_ [-> [_ [_ [Hall [Hfree [_ [_ Hdb]]]]]]]].
  rewrite (sanitize_url_fixed url Hp Hs) in *.
  split; [reflexivity|]. eexists. split.
  - rewrite Hdb, get_encodable by now apply ascii_alnum_encodable.
    apply select_last; [reflexivity|exact Hfree].
  - repeat split.
Qed.

(** C5. The creation is a total function that draws at most ten candidate
    codes of six characters, whatever the request; and when each of the ten
    candidates is the code of a mapping, a request with a valid URL is
    answered with the 500 of the exhausted generator and the store is as it
    was. *)
Theorem shorten_url_bounded_retries data now w :
  tape (random_state (snd (shorten_url U data now w)))
  = tape (random_state w)
  /\ (exists k, (k <= 10)%nat
                /\ cursor (random_state (snd (shorten_url U data now w)))
                   = (cursor (random_state w) + 6 * k)%nat)
  /\ (forall url,
         data = Some (JStr url) ->
         is_valid_url U url = true ->
         (forall code,
             In code (candidates 6 10 (random_state w)) ->
             In code (codes (rows (db w)))) ->
         shorten_url U data now w
         = (Error500 (lit "Unable to generate unique short code"),
            {| db := db w;
               random_state := snd (generate_unique_short_code
                                      (get_url_mapping (db w)) 6 10
                                      (random_state w)) |})).
Proof.
  assert (Hidle : exists k, (k <= 10)%nat
            /\ cursor (random_state w) = (cursor (random_state w) + 6 * k)%nat)
    by (exists 0%nat; split; lia).
  destruct (generate_unique_spec (get_url_mapping (db w)) default_length
              default_max_attempts (random_state w)) as [Ht [Hk Hsome]].
  split; [|split].
  - unfold shorten_url. destruct data as [[url|]|]; try reflexivity.
    destruct (is_valid_url U url); cbn [negb]; [|reflexivity].
    destruct (generate_unique_short_code _ _ _ _) as [[c|] g]; [|exact Ht].
    destruct (create_url_mapping _ _ _ _) as [[|] t]; exact Ht.
  - unfold shorten_url. destruct data as [[url|]|]; try exact Hidle.
    destruct (is_valid_url U url); cbn [negb]; [|exact Hidle].
    destruct (generate_unique_short_code _ _ _ _) as [[c|] g]; [|exact Hk].
    destruct (create_url_mapping _ _ _ _) as [[|] t]; exact Hk.
  - intros url -> Hv Hall. unfold shorten_url. rewrite Hv. cbn [negb].
    pose proof (generate_unique_exhausted (get_url_mapping (db w)) 6 10
                  (random_state w)) as Hex.
    change default_length with 6%nat. change default_max_attempts with 10%nat.
    destruct (generate_unique_short_code _ _ _ _) as [res g] eqn:Eg.
    cbn [fst snd] in *. rewrite Hex; [reflexivity|].
    intros code Hc Hnone.
    apply get_none_inv in Hnone; [now apply Hnone, Hall|].
    apply ascii_alnum_encodable. eapply candidates_alnum; eauto.
Qed.

End Handlers.

(* ================================================================= *)
(** ** The theorems on concrete runs *)

Lemma short_codes_unique_witness :
  fst (create_url_mapping
         (run [Create (lit "abc123") (lit "https://example.com") 0;
               RecordVisit (lit "abc123")] init_db)
         (lit "abc123") (lit "https://other.example") 5) = false
  /\ rows (snd (create_url_mapping
                  (run [Create (lit "abc123") (lit "https://example.com") 0;
                        RecordVisit (lit "abc123")] init_db)
                  (lit "abc123") (lit "https://other.example") 5))
     = rows (run [Create (lit "abc123") (lit "https://example.com") 0;
                  RecordVisit (lit "abc123")] init_db)
  /\ get_url_mapping
       (snd (create_url_mapping
               (run [Create (lit "abc123") (lit "https://example.com") 0;
                     RecordVisit (lit "abc123")] init_db)
               (lit "abc123") (lit "https://other.example") 5))
       (lit "abc123")
     = Some {| short_code := lit "abc123";
               original_url := lit "https://example.com";
               created_at := 0; click_count := Integer 1 |}.
Proof.
  apply (proj2 (short_codes_unique
                  [Create (lit "abc123") (lit "https://example.com") 0;
                   RecordVisit (lit "abc123")])).
  reflexivity.
Defined.

Lemma mapping_only_counts_up_witness :
  exists r',
    get_url_mapping
      (run [RecordVisit (lit "abc123"); Get (lit "abc123")]
         (run [Create (lit "abc123") (lit "https://example.com") 0;
               RecordVisit (lit "abc123")] init_db))
      (lit "abc123") = Some r'
    /\ same_mapping
         {| short_code := lit "abc123";
            original_url := lit "https://example.com";
            created_at := 0; click_count := Integer 1 |} r'
    /\ value_leb (Integer 1) (click_count r') = true.
Proof.
  apply (proj2 (mapping_only_counts_up
                  [Create (lit "abc123") (lit "https://example.com") 0;
                   RecordVisit (lit "abc123")]
                  (lit "abc123")
                  {| short_code := lit "abc123";
                     original_url := lit "https://example.com";
                     created_at := 0; click_count := Integer 1 |}
                  eq_refl)).
  intros [H|[H|[]]]; discriminate H.
Defined.

Lemma create_get_round_trip_witness :
  lit "https://example.com" = lit "https://example.com"
  /\ exists r,
       get_url_mapping
         (db (snd (shorten_url ascii_db
                     (Some (JStr (lit "https://example.com"))) 0
                     fresh_world)))
         (lit "aaaaaa") = Some r
       /\ short_code r = lit "aaaaaa"
       /\ original_url r = lit "https://example.com"
       /\ click_count r = Integer 0.
Proof.
  apply (create_get_round_trip ascii_db (lit "https://example.com") 0
           fresh_world (lit "aaaaaa") (lit "https://example.com")
           (lit "http://localhost:5000/aaaaaa")
           (snd (shorten_url ascii_db
                   (Some (JStr (lit "https://example.com"))) 0 fresh_world)));
    reflexivity.
Defined.

Lemma shorten_url_bounded_retries_witness :
  fst (shorten_url ascii_db (Some (JStr (lit "https://example.com"))) 0
         crowded_world)
  = Error500 (lit "Unable to generate unique short code")
  /\ db (snd (shorten_url ascii_db (Some (JStr (lit "https://example.com")))
                0 crowded_world))
     = db crowded_world.
Proof.
  destruct (shorten_url_bounded_retries ascii_db
              (Some (JStr (lit "https://example.com"))) 0 crowded_world)
    as [_ [_ H]].
  rewrite (H (lit "https://example.com") eq_refl eq_refl).
  - split; reflexivity.
  - intros code Hc. vm_compute in Hc. left.
    repeat (destruct Hc as [Hc|Hc]; [exact Hc|]). destruct Hc.
Defined.
(* ================================================================= *)
(** * Further properties of the code *)

(* ================================================================= *)
(** ** app/utils.py: codes *)

Section Codes.

Lemma characters_length : List.length characters = 62%nat.
Proof. reflexivity. Qed.

Lemma drawn_code_succ n g :
  drawn_code (S n) g
  = nth (Nat.modulo (tape g (cursor g)) 62) characters 0
    :: drawn_code n {| tape := tape g; cursor := S (cursor g) |}.
Proof.
  unfold drawn_code. cbn [List.seq List.map tape cursor].
  rewrite Nat.add_0_r. f_equal.
  rewrite <- seq_shift, map_map. apply map_ext. intros i.
  now rewrite Nat.add_succ_r.
Qed.

Lemma generate_short_code_drawn n g :
  generate_short_code n g
  = (drawn_code n g, {| tape := tape g; cursor := (cursor g + n)%nat |}).
Proof.
  revert g. induction n as [|n IH]; intros g.
  - destruct g as [tp cu]. cbn. now rewrite Nat.add_0_r.
  - cbn [generate_short_code]. unfold choice. rewrite characters_length.
    rewrite IH, drawn_code_succ. cbn [tape cursor].
    f_equal. f_equal. lia.
Qed.

(** [generate_short_code(length)] in closed form: the [i]-th character of
    the code is the letter or digit the [i]-th coming draw selects, so the
    code has [length] characters, all of the alphabet of 62, and the
    generator has moved on by [length] draws. *)
Theorem generate_short_code_closed_form (n : nat) (g : rng) :
  generate_short_code n g
  = (drawn_code n g, {| tape := tape g; cursor := (cursor g + n)%nat |})
  /\ List.length (drawn_code n g) = n
  /\ Forall (fun c => In c characters) (drawn_code n g).
Proof.
  split; [apply generate_short_code_drawn|]. split.
  - unfold drawn_code. now rewrite length_map, length_seq.
  - unfold drawn_code. apply Forall_forall. intros c Hc.
    apply in_map_iff in Hc as [i [<- _]].
    apply nth_In. rewrite characters_length.
    apply Nat.mod_upper_bound. discriminate.
Qed.

(** The format check accepts what the generator produces at the default
    length, and a code generated with any other length fails it. *)
Theorem validate_generated_code (U : unicode_db) (n : nat) (g : rng) :
  validate_short_code U (fst (generate_short_code n g)) = Nat.eqb n 6.
Proof.
  destruct (generate_short_code_spec n g) as [Hlen [Hall _]].
  destruct (Nat.eqb n 6) eqn:E.
  - apply Nat.eqb_eq in E. subst n. now apply validate_generated.
  - apply Nat.eqb_neq in E. unfold validate_short_code, len.
    destruct (fst (generate_short_code n g)) as [|c code]; [reflexivity|].
    cbn [is_empty]. rewrite Hlen.
    destruct (Z.of_nat n =? 6) eqn:E6; [|reflexivity].
    apply Z.eqb_eq in E6. lia.
Qed.

(** [generate_unique_short_code] returns the first candidate that is free
    in the store it asks, and nothing when none of the [max_attempts]
    candidates is; in that case it has drawn all of them. *)
Theorem generate_unique_first_free {A : Type} (get : str -> option A)
    (len m : nat) (g : rng) :
  fst (generate_unique_short_code get len m g)
  = List.find (is_free get) (candidates len m g)
  /\ (fst (generate_unique_short_code get len m g) = None ->
      cursor (snd (generate_unique_short_code get len m g))
      = (cursor g + len * m)%nat).
Proof.
  revert g. induction m as [|m IH]; intros g.
  - cbn. split; [reflexivity|]. intros _. lia.
  - cbn [generate_unique_short_code candidates].
    rewrite generate_short_code_drawn. cbn [List.find]. unfold is_free at 1.
    destruct (get (drawn_code len g)) as [a|].
    + destruct (IH {| tape := tape g; cursor := (cursor g + len)%nat |})
        as [Hfind Hnone].
      split; [exact Hfind|]. intros H. rewrite (Hnone H). cbn [cursor]. lia.
    + cbn [fst]. split; [reflexivity|discriminate].
Qed.

Lemma generate_unique_first_free_witness :
  cursor (snd (generate_unique_short_code
                 (get_url_mapping (db crowded_world)) 6 10 constant_rng))
  = (cursor constant_rng + 6 * 10)%nat.
Proof.
  apply (proj2 (generate_unique_first_free
                  (get_url_mapping (db crowded_world)) 6 10 constant_rng)).
  vm_compute. reflexivity.
Defined.

Lemma forallb_agree {A} (p q : A -> bool) (l : list A) :
  (forall x, In x l -> p x = q x) -> forallb p l = forallb q l.
Proof.
  induction l as [|x l IH]; intros H; [reflexivity|]. simpl.
  rewrite (H x) by now left. rewrite IH; [reflexivity|].
  intros y Hy. apply H. now right.
Qed.

(** On a string of ASCII characters [validate_short_code] is: six
    characters, each of them a letter or a digit. *)
Theorem validate_short_code_ascii (U : unicode_db) (s : str) :
  forallb (fun c => c <? 0x80) s = true ->
  validate_short_code U s
  = Nat.eqb (List.length s) 6 && forallb is_ascii_alnum s.
Proof.
  intros Hascii. unfold validate_short_code, len.
  destruct s as [|c s]; [reflexivity|]. cbn [is_empty].
  assert (E : (Z.of_nat (List.length (c :: s)) =? 6)
              = Nat.eqb (List.length (c :: s)) 6).
  { destruct (Nat.eqb (List.length (c :: s)) 6) eqn:En.
    - apply Nat.eqb_eq in En. rewrite En. reflexivity.
    - apply Nat.eqb_neq in En. apply Z.eqb_neq. lia. }
  rewrite E. destruct (Nat.eqb (List.length (c :: s)) 6); [|reflexivity].
  cbn [negb andb]. unfold isalnum. cbn [is_empty negb andb].
  apply forallb_agree. intros x Hx.
  rewrite forallb_forall in Hascii. unfold isalnum_char.
  now rewrite (Hascii x Hx).
Qed.

Lemma validate_short_code_ascii_witness :
  validate_short_code ascii_db (lit "ab-123")
  = Nat.eqb (List.length (lit "ab-123")) 6
    && forallb is_ascii_alnum (lit "ab-123").
Proof. apply validate_short_code_ascii. reflexivity. Defined.

End Codes.

(* ================================================================= *)
(** ** app/utils.py: URLs *)

Section Urls.

Lemma strip_nil_empty x : is_empty x = true -> x = [].
Proof. destruct x; [reflexivity|discriminate]. Qed.

Lemma sanitize_url_trimmed_prefixed (x : str) :
  strip (sanitize_url x) = sanitize_url x
  /\ (sanitize_url x = []
      \/ startswith (sanitize_url x) (lit "http://")
         || startswith (sanitize_url x) (lit "https://") = true)
  /\ (sanitize_url x = [] <-> strip x = []).
Proof.
  unfold sanitize_url. cbv zeta.
  destruct (is_empty x) eqn:Ex.
  - apply strip_nil_empty in Ex. subst x. repeat split; auto.
  - destruct (is_empty (strip x)) eqn:Es; cbn [negb andb].
    + apply strip_nil_empty in Es. rewrite Es. repeat split; auto.
    + apply is_empty_false_iff in Es.
      destruct (startswith (strip x) (lit "http://")
                || startswith (strip x) (lit "https://")) eqn:Ep;
        cbn [negb].
      * split; [apply strip_idem|]. split; [now right|]. tauto.
      * split; [apply strip_prefixed; [reflexivity|discriminate|exact Es]|].
        split; [right; now rewrite startswith_app|].
        split; [discriminate|contradiction].
Qed.

(** What [sanitize_url] returns has no whitespace at either end, and is
    empty or begins with [http://] or [https://]; it is empty exactly when
    the input is empty or all whitespace. *)
Theorem sanitize_url_shape (x : str) :
  strip (sanitize_url x) = sanitize_url x
  /\ (sanitize_url x = []
      \/ startswith (sanitize_url x) (lit "http://")
         || startswith (sanitize_url x) (lit "https://") = true)
  /\ (sanitize_url x = [] <-> strip x = []).
Proof. apply sanitize_url_trimmed_prefixed. Qed.

(** *** What the pattern accepts *)

Lemma in_lang_avoid P r s :
  classes_avoid P r -> in_lang r s -> Forall (fun c => P c = false) s.
Proof.
  intros Hr H. induction H; simpl in Hr.
  - constructor.
  - constructor; [now apply Hr|constructor].
  - apply Forall_app. split; [apply IHin_lang1|apply IHin_lang2]; tauto.
  - apply IHin_lang. tauto.
  - apply IHin_lang. tauto.
  - constructor.
  - apply Forall_app. split; [now apply IHin_lang1|now apply IHin_lang2].
Qed.

Lemma classes_avoid_opt P r : classes_avoid P r -> classes_avoid P (opt r).
Proof. simpl. tauto. Qed.

Lemma classes_avoid_plus P r : classes_avoid P r -> classes_avoid P (plus r).
Proof. simpl. tauto. Qed.

Lemma classes_avoid_times P n r :
  classes_avoid P r -> classes_avoid P (times n r).
Proof. intros H. induction n; simpl; tauto. Qed.

Lemma classes_avoid_upto P n r :
  classes_avoid P r -> classes_avoid P (upto n r).
Proof. intros H. induction n; simpl; tauto. Qed.

Lemma classes_avoid_rep P lo hi r :
  classes_avoid P r -> classes_avoid P (rep lo hi r).
Proof.
  intros H. split; [now apply classes_avoid_times|now apply classes_avoid_upto].
Qed.

(** ASCII whitespace is below the letters and is left alone by the case
    folding. *)
Lemma ascii_space_range c :
  ascii_space c = true -> 9 <= c <= 32 /\ ci_fold c = c.
Proof.
  unfold ascii_space, isspace, in_range.
  rewrite !andb_true_iff, !orb_true_iff, !andb_true_iff, !Z.eqb_eq,
    !Z.leb_le, Z.ltb_lt.
  intros [H Hlt]. assert (Hr : 9 <= c <= 32) by lia. split; [exact Hr|].
  unfold ci_fold, is_ascii_upper, in_range.
  replace (65 <=? c) with false by (symmetry; apply Z.leb_gt; lia).
  cbn [andb].
  replace (c =? 304) with false by (symmetry; apply Z.eqb_neq; lia).
  replace (c =? 305) with false by (symmetry; apply Z.eqb_neq; lia).
  replace (c =? 383) with false by (symmetry; apply Z.eqb_neq; lia).
  replace (c =? 8490) with false by (symmetry; apply Z.eqb_neq; lia).
  reflexivity.
Qed.

(** A class that accepts no character from 9 to 32 accepts no ASCII
    whitespace. *)
Lemma avoid_by_range (p : codepoint -> bool) :
  (forall c, 9 <= c <= 32 -> ci_fold c = c -> p c = false) ->
  forall c, p c = true -> ascii_space c = false.
Proof.
  intros H c Hp. destruct (ascii_space c) eqn:E; [|reflexivity].
  apply ascii_space_range in E as [Hr Hf]. rewrite (H c Hr Hf) in Hp.
  discriminate.
Qed.

Lemma chr_ci_avoid l :
  ~ 9 <= ci_fold l <= 32 -> classes_avoid ascii_space (chr_ci l).
Proof.
  intros Hl. unfold chr_ci. cbn [classes_avoid].
  apply avoid_by_range. intros c Hr Hf. rewrite Hf.
  apply Z.eqb_neq. lia.
Qed.

Lemma lits_ci_avoid l :
  Forall (fun x => ~ 9 <= ci_fold x <= 32) l ->
  classes_avoid ascii_space (lits_ci l).
Proof.
  induction 1 as [|x l Hx _ IH]; simpl; [exact I|].
  split; [now apply chr_ci_avoid|exact IH].
Qed.

Lemma letters_above_space l :
  forallb (fun x => 32 <? ci_fold x) l = true ->
  Forall (fun x => ~ 9 <= ci_fold x <= 32) l.
Proof.
  rewrite forallb_forall, Forall_forall. intros H x Hx.
  apply H in Hx. apply Z.ltb_lt in Hx. lia.
Qed.

Lemma letter_avoid : classes_avoid ascii_space (Cls UrlPattern.letter).
Proof.
  cbn [classes_avoid]. apply avoid_by_range. intros c Hr Hf.
  unfold UrlPattern.letter, is_ascii_lower, in_range. rewrite Hf.
  replace (97 <=? c) with false by (symmetry; apply Z.leb_gt; lia).
  reflexivity.
Qed.

Lemma letter_digit_avoid :
  classes_avoid ascii_space (Cls UrlPattern.letter_digit).
Proof.
  cbn [classes_avoid]. apply avoid_by_range. intros c Hr Hf.
  unfold UrlPattern.letter_digit, UrlPattern.letter, is_ascii_lower,
    is_ascii_digit, in_range. rewrite Hf.
  replace (97 <=? c) with false by (symmetry; apply Z.leb_gt; lia).
  replace (48 <=? c) with false by (symmetry; apply Z.leb_gt; lia).
  reflexivity.
Qed.

Lemma letter_digit_dash_avoid :
  classes_avoid ascii_space (Cls UrlPattern.letter_digit_dash).
Proof.
  cbn [classes_avoid]. apply avoid_by_range. intros c Hr Hf.
  unfold UrlPattern.letter_digit_dash, UrlPattern.letter_digit,
    UrlPattern.letter, is_ascii_lower, is_ascii_digit, in_range. rewrite Hf.
  replace (97 <=? c) with false by (symmetry; apply Z.leb_gt; lia).
  replace (48 <=? c) with false by (symmetry; apply Z.leb_gt; lia).
  replace (c =? 45) with false by (symmetry; apply Z.eqb_neq; lia).
  reflexivity.
Qed.

Lemma char_avoid k :
  32 < k -> classes_avoid ascii_space (Cls (fun c => c =? k)).
Proof.
  intros Hk. cbn [classes_avoid]. apply avoid_by_range.
  intros c Hr _. apply Z.eqb_neq. lia.
Qed.

Lemma digit_avoid U : classes_avoid ascii_space (UrlPattern.digit U).
Proof.
  intros c Hp. unfold ascii_space. unfold isdecimal_char in Hp.
  destruct (c <? 128) eqn:E; [|now rewrite andb_false_r].
  rewrite andb_true_r.
  unfold is_ascii_digit, in_range in Hp.
  apply andb_true_iff in Hp as [H1 H2]. apply Z.leb_le in H1, H2.
  unfold isspace, in_range.
  repeat match goal with
         | |- context [?a <=? ?b] =>
             first [ replace (a <=? b) with false
                       by (symmetry; apply Z.leb_gt; lia)
                   | replace (a <=? b) with true
                       by (symmetry; apply Z.leb_le; lia) ]
         | |- context [?a =? ?b] =>
             replace (a =? b) with false by (symmetry; apply Z.eqb_neq; lia)
         end.
  reflexivity.
Qed.

Lemma path_avoid : classes_avoid ascii_space UrlPattern.path.
Proof.
  split; [apply classes_avoid_opt, char_avoid; lia|]. split.
  - cbn [classes_avoid]. apply avoid_by_range.
    intros c Hr _. unfold UrlPattern.slash_or_query.
    replace (c =? 47) with false by (symmetry; apply Z.eqb_neq; lia).
    replace (c =? 63) with false by (symmetry; apply Z.eqb_neq; lia).
    reflexivity.
  - apply classes_avoid_plus. intros c Hp. unfold UrlPattern.non_space in Hp.
    apply negb_true_iff in Hp. unfold ascii_space. now rewrite Hp.
Qed.

Lemma url_pattern_avoid U :
  classes_avoid ascii_space (UrlPattern.url_pattern U).
Proof.
  assert (Hdot : classes_avoid ascii_space UrlPattern.dot)
    by (apply char_avoid; lia).
  assert (Hd3 : classes_avoid ascii_space (rep 1 3 (UrlPattern.digit U)))
    by apply classes_avoid_rep, digit_avoid.
  split; [|split; [split; [|split]|split]].
  - (* scheme *)
    split; [apply lits_ci_avoid, letters_above_space; reflexivity|].
    split; [apply classes_avoid_opt, chr_ci_avoid; intros [_ H];
            vm_compute in H; now apply H|].
    apply lits_ci_avoid, letters_above_space. reflexivity.
  - (* domain *)
    split.
    + apply classes_avoid_plus. split; [apply letter_digit_avoid|].
      split; [|exact Hdot]. apply classes_avoid_opt.
      split; [apply classes_avoid_rep, letter_digit_dash_avoid|].
      apply letter_digit_avoid.
    + split; [apply classes_avoid_rep, letter_avoid|].
      now apply classes_avoid_opt.
  - (* localhost *)
    apply lits_ci_avoid, letters_above_space. reflexivity.
  - (* ip *)
    split; [exact Hd3|]. split; [exact Hdot|].
    split; [exact Hd3|]. split; [exact Hdot|].
    split; [exact Hd3|]. split; [exact Hdot|exact Hd3].
  - (* port *)
    apply classes_avoid_opt. split; [apply char_avoid; lia|].
    apply classes_avoid_plus, digit_avoid.
  - apply path_avoid.
Qed.

(** *** The scheme *)

Lemma in_lang_lits_ci l s :
  in_lang (lits_ci l) s -> List.map ci_fold s = List.map ci_fold l.
Proof.
  revert s. induction l as [|x l IH]; intros s H; simpl in H.
  - apply in_lang_eps in H. now subst.
  - apply in_lang_seq in H as [s1 [s2 [-> [H1 H2]]]].
    inversion H1; subst. apply Z.eqb_eq in H0.
    simpl. rewrite H0. f_equal. now apply IH.
Qed.

Lemma in_lang_scheme s :
  in_lang UrlPattern.scheme s ->
  List.map ci_fold s = lit "http://" \/ List.map ci_fold s = lit "https://".
Proof.
  intros H. unfold UrlPattern.scheme in H.
  apply in_lang_seq in H as [s1 [s2 [-> [H1 H2]]]].
  apply in_lang_seq in H2 as [s3 [s4 [-> [H3 H4]]]].
  apply in_lang_lits_ci in H1, H4. rewrite !map_app, H1, H4.
  apply in_lang_opt in H3 as [H3| ->].
  - right. inversion H3; subst. apply Z.eqb_eq in H0. simpl. rewrite H0.
    reflexivity.
  - left. reflexivity.
Qed.

Lemma in_lang_url_pattern U s :
  in_lang (UrlPattern.url_pattern U) s ->
  has_http_scheme s /\ Forall (fun c => ascii_space c = false) s.
Proof.
  intros H. split.
  - unfold UrlPattern.url_pattern in H.
    apply in_lang_seq in H as [s1 [s2 [-> [H1 _]]]].
    exists s1, s2. split; [reflexivity|now apply in_lang_scheme].
  - eapply in_lang_avoid; [apply url_pattern_avoid|exact H].
Qed.

Lemma match_anchored_inv r s :
  match_anchored r s = true ->
  exists body, (s = body \/ s = body ++ [10]) /\ fullmatch r body = true.
Proof.
  unfold match_anchored. intros H. apply orb_true_iff in H as [H|H].
  - exists s. auto.
  - destruct (rev s) as [|c t] eqn:E; [discriminate|].
    destruct (c =? 10) eqn:Ec.
    + apply Z.eqb_eq in Ec. subst c. exists (rev t). split; [right|].
      * rewrite <- (rev_involutive s), E. reflexivity.
      * destruct t; exact H.
    + exfalso. apply Z.eqb_neq in Ec.
      destruct c as [|p|p]; try discriminate.
      do 4 (destruct p as [p|p|]; try discriminate). congruence.
Qed.

Lemma is_valid_url_matches U url :
  is_valid_url U url = true ->
  match_anchored (UrlPattern.url_pattern U) url = true.
Proof.
  unfold is_valid_url. destruct (is_empty url); [discriminate|].
  destruct (match_anchored (UrlPattern.url_pattern U) url);
    [reflexivity|discriminate].
Qed.

End Urls.

(* ================================================================= *)
(** ** app/utils.py: a newline after the URL *)

Section Newline.

Lemma rstrip_app_space s c :
  isspace c = true -> rstrip (s ++ [c]) = rstrip s.
Proof.
  intros Hc. induction s as [|x s IH]; simpl.
  - now rewrite Hc.
  - now rewrite IH.
Qed.

Lemma lstrip_app_head c s t :
  isspace c = false -> lstrip ((c :: s) ++ t) = (c :: s) ++ t.
Proof. intros Hc. simpl. now rewrite Hc. Qed.

Lemma lstrip_c0_newline s :
  List.filter (fun c => negb (unsafe_url_byte c)) (lstrip_c0 (s ++ [10]))
  = List.filter (fun c => negb (unsafe_url_byte c)) (lstrip_c0 s).
Proof.
  induction s as [|x s IH]; simpl; [reflexivity|].
  destruct (c0_control_or_space x); [exact IH|].
  change (x :: s ++ [10]) with ((x :: s) ++ [10]).
  rewrite filter_app. simpl. apply app_nil_r.
Qed.

Lemma urlparse_newline U s : urlparse U (s ++ [10]) = urlparse U s.
Proof. unfold urlparse. cbv zeta. now rewrite lstrip_c0_newline. Qed.

Lemma ci_fold_h c : ci_fold c = 104 -> c = 104 \/ c = 72.
Proof.
  unfold ci_fold, is_ascii_upper, in_range.
  destruct ((65 <=? c) && (c <=? 90)); [lia|].
  destruct ((c =? 304) || (c =? 305)); [discriminate|].
  destruct (c =? 383); [discriminate|].
  destruct (c =? 8490); [discriminate|]. auto.
Qed.

Lemma has_http_scheme_head s :
  has_http_scheme s -> exists c t, s = c :: t /\ isspace c = false.
Proof.
  intros [s1 [s2 [-> [H|H]]]]; destruct s1 as [|c s1]; try discriminate;
    injection H as Hc _; exists c, (s1 ++ s2); (split; [reflexivity|]);
    apply ci_fold_h in Hc as [->| ->]; reflexivity.
Qed.

Lemma match_anchored_newline r s :
  fullmatch r s = true -> match_anchored r (s ++ [10]) = true.
Proof.
  intros H. unfold match_anchored. rewrite rev_app_distr. simpl.
  rewrite rev_involutive, H. apply orb_true_r.
Qed.

(** A valid URL is still valid with a newline after it, and what
    [sanitize_url] makes of it is what it makes of the URL without the
    newline: the handler stores the same URL for both. *)
Theorem valid_url_with_newline (U : unicode_db) (url : str) :
  is_valid_url U url = true ->
  (forall u, url <> u ++ [10]) ->
  is_valid_url U (url ++ [10]) = true
  /\ sanitize_url (url ++ [10]) = sanitize_url url.
Proof.
  intros Hv Hlast.
  destruct (match_anchored_inv _ _ (is_valid_url_matches U url Hv))
    as [body [[<-|E] Hm]]; [|now apply Hlast in E].
  pose proof (proj2 (fullmatch_in_lang _ _)
                (proj1 (fullmatch_in_lang _ _) Hm)) as Hm'.
  apply fullmatch_in_lang, in_lang_url_pattern in Hm as [Hs _].
  apply has_http_scheme_head in Hs as [c [t [E Hc]]].
  split.
  - unfold is_valid_url in *. rewrite urlparse_newline.
    rewrite (match_anchored_newline _ _ Hm'). cbn [negb].
    subst url. cbn [is_empty app]. cbn [is_empty] in Hv.
    destruct (match_anchored (UrlPattern.url_pattern U) (c :: t));
      [exact Hv|discriminate].
  - unfold sanitize_url. cbv zeta. subst url. cbn [is_empty app].
    change (c :: t ++ [10]) with ((c :: t) ++ [10]).
    unfold strip. rewrite (lstrip_app_head c t [10] Hc).
    rewrite (lstrip_id (c :: t)) by (simpl; now rewrite Hc).
    rewrite rstrip_app_space by reflexivity. reflexivity.
Qed.

Lemma valid_url_with_newline_witness :
  is_valid_url ascii_db (lit "https://www.example.com" ++ [10]) = true
  /\ sanitize_url (lit "https://www.example.com" ++ [10])
     = sanitize_url (lit "https://www.example.com").
Proof.
  apply valid_url_with_newline; [vm_compute; reflexivity|].
  intros u E. apply (f_equal (@rev Z)) in E.
  rewrite rev_app_distr in E. vm_compute in E. discriminate E.
Defined.

End Newline.

(* ================================================================= *)
(** ** app/models.py: deletion, listing and the order of visits *)

Section StoreMore.

Implicit Types (s : store) (t : table) (r : row) (c k u : str) (o : op).

(** [delete_url] where its DELETE runs (the code can be bound and no
    connection holds the write lock) answers whether the code was there;
    afterwards the code is not found, every other lookup is as before, and
    a second deletion answers [False]. Where the DELETE does not run, the
    answer is [False] and the store is as it was: a row under the code
    stays. *)
Theorem delete_url_effect s c :
  (encodable c = true -> write_locked s = false ->
   fst (delete_url s c) = existsb (has_code c) (rows s)
   /\ get_url_mapping (snd (delete_url s c)) c = None
   /\ (forall k, k <> c ->
         get_url_mapping (snd (delete_url s c)) k = get_url_mapping s k)
   /\ fst (delete_url (snd (delete_url s c)) c) = false)
  /\ (encodable c = false \/ write_locked s = true ->
      delete_url s c = (false, s)).
Proof.
  split; [|apply delete_fails].
  intros Hc Hl. rewrite delete_runs by assumption. cbn [fst snd].
  split; [apply rowcount_present|]. split; [|split].
  - apply get_none_absent. cbn [rows]. apply codes_delete_row.
  - intros k Hk. unfold get_url_mapping. cbn [rows].
    destruct (encodable k); [|reflexivity].
    unfold delete_row. cbn [snd]. rewrite select_delete.
    apply str_eqb_neq in Hk. now rewrite Hk.
  - rewrite delete_runs by (exact Hc || reflexivity). cbn [fst rows].
    unfold delete_row at 1. cbn [fst]. rewrite rowcount_zero; [reflexivity|].
    apply codes_delete_row.
Qed.

Lemma delete_url_effect_witness :
  get_url_mapping (snd (delete_url (db crowded_world) (lit "zzzzzz")))
    (lit "aaaaaa")
  = get_url_mapping (db crowded_world) (lit "aaaaaa").
Proof.
  apply (proj1 (proj2 (proj2 (proj1 (delete_url_effect (db crowded_world)
                                       (lit "zzzzzz"))
                                eq_refl eq_refl)))).
  discriminate.
Defined.





(** Creating a mapping changes the lookup of no other code. *)
Theorem create_keeps_other_codes s c u now k :
  k <> c ->
  get_url_mapping (snd (create_url_mapping s c u now)) k
  = get_url_mapping s k.
Proof.
  intros Hk. unfold get_url_mapping.
  destruct (encodable k); [|reflexivity].
  unfold create_url_mapping, insert_row.
  destruct (negb (encodable c && encodable u)); [reflexivity|].
  destruct (write_locked s); [reflexivity|].
  destruct (existsb (has_code c) (rows s)); cbn [snd rows]; [reflexivity|].
  destruct (select_row (rows s) k) as [r|] eqn:E.
  - now apply select_app_some.
  - rewrite select_app_none by exact E. unfold select_row. simpl.
    unfold has_code. cbn [short_code].
    destruct (str_eqb c k) eqn:Eck; [|reflexivity].
    apply str_eqb_eq in Eck. congruence.
Qed.

Lemma create_keeps_other_codes_witness :
  get_url_mapping
    (snd (create_url_mapping (db crowded_world) (lit "abc123")
            (lit "https://example.com") 7)) (lit "aaaaaa")
  = get_url_mapping (db crowded_world) (lit "aaaaaa").
Proof. apply create_keeps_other_codes. discriminate. Defined.

(** *** The codes of a store that was reached from the empty one *)

Lemma step_codes_encodable s o :
  codes_encodable (rows s) -> codes_encodable (rows (step s o)).
Proof.
  unfold codes_encodable. intros H.
  destruct o as [c u now|c|c| |c|]; cbn [step]; try exact H.
  - unfold create_url_mapping, insert_row.
    destruct (encodable c && encodable u) eqn:E; cbn [negb]; [|exact H].
    destruct (write_locked s); [exact H|].
    destruct (existsb (has_code c) (rows s)); cbn [snd rows]; [exact H|].
    apply andb_true_iff in E as [Hc _].
    rewrite Forall_forall in *. intros r Hin.
    apply in_app_or in Hin as [Hin|[<-|[]]]; [now apply H|exact Hc].
  - destruct (step_rows s (RecordVisit c)) as [E|E]; cbn [step] in E;
      rewrite E; [exact H|].
    cbn [table_step]. unfold update_row. cbn [snd].
    rewrite Forall_forall in *. intros r Hin.
    apply in_map_iff in Hin as [x [<- Hx]].
    destruct (has_code c x); [|now apply H]. exact (H x Hx).
  - destruct (step_rows s (Delete c)) as [E|E]; cbn [step] in E;
      rewrite E; [exact H|].
    cbn [table_step]. unfold delete_row. cbn [snd].
    rewrite Forall_forall in *. intros r Hin.
    apply filter_In in Hin as [Hin _]. now apply H.
Qed.

Lemma run_codes_encodable ops s :
  codes_encodable (rows s) -> codes_encodable (rows (run ops s)).
Proof.
  revert s. induction ops as [|o ops IH]; simpl; intros s H; [exact H|].
  apply IH. now apply step_codes_encodable.
Qed.

(** A code that cannot be bound is in no row of such a store. *)
Lemma unencodable_absent t c :
  codes_encodable t -> encodable c = false -> existsb (has_code c) t = false.
Proof.
  intros H Hc. destruct (existsb (has_code c) t) eqn:E; [|reflexivity].
  apply existsb_exists in E as [r [Hin Hr]]. apply has_code_iff in Hr.
  unfold codes_encodable in H. rewrite Forall_forall in H.
  apply H in Hin. congruence.
Qed.

(** In a store reached from the empty one, the WHERE clause of a statement
    selects one row when the code is there and none otherwise;
    [increment_click_count] and [delete_url] answer [True] exactly when no
    connection holds the write lock and the code is there; and every row
    [get_all_urls] lists is the one the lookup of its code returns. *)
Theorem one_row_per_code (ops : list op) (c : str) :
  rowcount c (rows (run ops init_db))
  = (if existsb (has_code c) (rows (run ops init_db)) then 1 else 0)
  /\ fst (increment_click_count (run ops init_db) c)
     = negb (write_locked (run ops init_db))
       && existsb (has_code c) (rows (run ops init_db))
  /\ fst (delete_url (run ops init_db) c)
     = negb (write_locked (run ops init_db))
       && existsb (has_code c) (rows (run ops init_db))
  /\ forall r,
       In r (get_all_urls (run ops init_db)) ->
       get_url_mapping (run ops init_db) (short_code r) = Some r.
Proof.
  assert (Hnd : NoDup (codes (rows (run ops init_db))))
    by (apply run_unique; constructor).
  assert (Henc : codes_encodable (rows (run ops init_db)))
    by (apply run_codes_encodable; constructor).
  split; [now apply rowcount_unique|].
  split; [|split].
  - unfold increment_click_count.
    destruct (encodable c) eqn:Hc; cbn [negb].
    + destruct (write_locked (run ops init_db)); [reflexivity|].
      cbn [negb andb]. unfold update_row. apply rowcount_present.
    + rewrite (unencodable_absent _ _ Henc Hc). now rewrite andb_false_r.
  - unfold delete_url.
    destruct (encodable c) eqn:Hc; cbn [negb].
    + destruct (write_locked (run ops init_db)); [reflexivity|].
      cbn [negb andb]. unfold delete_row. apply rowcount_present.
    + rewrite (unencodable_absent _ _ Henc Hc). now rewrite andb_false_r.
  - intros r Hin. unfold get_all_urls in Hin.
    rewrite get_encodable; [now apply select_listed|].
    unfold codes_encodable in Henc. rewrite Forall_forall in Henc.
    now apply Henc.
Qed.

Lemma one_row_per_code_witness :
  get_url_mapping
    (run [Create (lit "abc123") (lit "https://example.com") 0;
          Create (lit "xyz789") (lit "https://example.org") 1] init_db)
    (lit "xyz789")
  = Some {| short_code := lit "xyz789";
            original_url := lit "https://example.org";
            created_at := 1; click_count := Integer 0 |}.
Proof.
  apply (proj2 (proj2 (proj2 (one_row_per_code
                  [Create (lit "abc123") (lit "https://example.com") 0;
                   Create (lit "xyz789") (lit "https://example.org") 1]
                  (lit "xyz789"))))
           {| short_code := lit "xyz789";
              original_url := lit "https://example.org";
              created_at := 1; click_count := Integer 0 |}).
  right. left. reflexivity.
Defined.

(** Recorded visits commute: two calls of [increment_click_count], for the
    same code or for two codes, leave the same store in either order, and
    the first does not change the answer of the second. *)
Theorem increments_commute s c1 c2 :
  snd (increment_click_count (snd (increment_click_count s c1)) c2)
  = snd (increment_click_count (snd (increment_click_count s c2)) c1)
  /\ fst (increment_click_count (snd (increment_click_count s c1)) c2)
     = fst (increment_click_count s c2).
Proof.
  destruct (write_locked s) eqn:Hl.
  { rewrite !(increment_fails s) by now right. cbn [snd].
    rewrite ?(increment_fails s) by now right. now split. }
  destruct (encodable c1) eqn:H1.
  2:{ rewrite (increment_fails s c1) by now left. cbn [snd].
      rewrite (increment_fails _ c1) by now left. now split. }
  destruct (encodable c2) eqn:H2.
  2:{ rewrite (increment_fails s c2) by now left. cbn [snd].
      rewrite (increment_fails _ c2) by now left. now split. }
  rewrite (increment_runs s c1), (increment_runs s c2) by assumption.
  cbn [snd]. rewrite !increment_runs by (assumption || reflexivity).
  cbn [fst snd rows]. unfold update_row. cbn [fst snd]. split.
  - f_equal. rewrite !map_map. apply map_ext. intros r.
    destruct (has_code c1 r) eqn:E1, (has_code c2 r) eqn:E2;
      rewrite ?has_code_set_click_count, ?E1, ?E2; reflexivity.
  - now rewrite rowcount_update.
Qed.





End StoreMore.
(* ================================================================= *)
(** ** app/main.py: what the handlers do to the store *)

Section HandlersMore.

Variable U : unicode_db.

Lemma rstrip_head c t : isspace c = false -> rstrip (c :: t) <> [].
Proof.
  intros Hc. simpl. destruct (rstrip t); [rewrite Hc|]; discriminate.
Qed.

Lemma valid_url_not_blank url : is_valid_url U url = true -> strip url <> [].
Proof.
  intros Hv.
  destruct (match_anchored_inv _ _ (is_valid_url_matches U url Hv))
    as [body [Hb Hm]].
  apply fullmatch_in_lang, in_lang_url_pattern in Hm as [Hs _].
  apply has_http_scheme_head in Hs as [c [t [-> Hc]]].
  assert (E : exists t', url = c :: t').
  { destruct Hb as [->| ->]; [now exists t|now exists (t ++ [10])]. }
  destruct E as [t' ->]. unfold strip.
  rewrite lstrip_id by (simpl; now rewrite Hc). now apply rstrip_head.
Qed.

Lemma sanitized_valid_url url :
  is_valid_url U url = true ->
  strip (sanitize_url url) = sanitize_url url
  /\ (startswith (sanitize_url url) (lit "http://")
      || startswith (sanitize_url url) (lit "https://")) = true.
Proof.
  intros Hv.
  destruct (sanitize_url_trimmed_prefixed url) as [Ht [[He|Hp] Hiff]].
  - apply Hiff in He. now apply valid_url_not_blank in He.
  - auto.
Qed.

(** The three ways [shorten_url] can leave the store: as it was, with an
    answer that is neither a 201 nor the 500 of a failed creation; as it
    was, with that 500, when the INSERT of the free code could not run; or
    with one more row, for a 201. *)
Lemma shorten_url_db data now w :
  (db (snd (shorten_url U data now w)) = db w
   /\ (forall code ou su,
         fst (shorten_url U data now w) <> Created201 code ou su)
   /\ fst (shorten_url U data now w)
      <> Error500 (lit "Failed to create URL mapping"))
  \/ (db (snd (shorten_url U data now w)) = db w
      /\ fst (shorten_url U data now w)
         = Error500 (lit "Failed to create URL mapping")
      /\ exists url,
           data = Some (JStr url)
           /\ is_valid_url U url = true
           /\ fst (generate_unique_short_code (get_url_mapping (db w))
                     default_length default_max_attempts (random_state w))
              <> None
           /\ (write_locked (db w) = true
               \/ encodable (sanitize_url url) = false))
  \/ exists url code,
       data = Some (JStr url)
       /\ is_valid_url U url = true
       /\ fst (shorten_url U data now w)
          = Created201 code (sanitize_url url)
              (lit "http://localhost:5000/" ++ code)
       /\ List.length code = 6%nat
       /\ forallb is_ascii_alnum code = true
       /\ ~ In code (codes (rows (db w)))
       /\ write_locked (db w) = false
       /\ db (snd (shorten_url U data now w))
          = {| rows := rows (db w)
                       ++ [{| short_code := code;
                              original_url := sanitize_url url;
                              created_at := now;
                              click_count := Integer 0 |}];
               write_locked := false |}.
Proof.
  unfold shorten_url.
  destruct data as [[url|]|];
    try (left; cbn [fst snd]; repeat split; intros; discriminate).
  destruct (is_valid_url U url) eqn:Ev; cbn [negb];
    [|left; cbn [fst snd]; repeat split; intros; discriminate].
  destruct (generate_unique_spec (get_url_mapping (db w)) default_length
              default_max_attempts (random_state w)) as [_ [_ Hsome]].
  destruct (generate_unique_short_code (get_url_mapping (db w))
              default_length default_max_attempts (random_state w))
    as [[c|] g];
    [|left; cbn [fst snd db]; repeat split; intros; discriminate].
  destruct (Hsome c eq_refl) as [Hfree [Hlen Hall]].
  pose proof (ascii_alnum_encodable c Hall) as Hc.
  apply get_none_inv in Hfree; [|exact Hc].
  destruct (write_locked (db w)) eqn:Hl.
  { rewrite create_fails by now right. cbn [negb fst snd db].
    right. left. split; [reflexivity|]. split; [reflexivity|].
    exists url. repeat split; try assumption; [discriminate|now left]. }
  destruct (encodable (sanitize_url url)) eqn:Hu.
  - rewrite create_runs by assumption.
    destruct (existsb (has_code c) (rows (db w))) eqn:E;
      [apply existsb_has_code in E; contradiction|].
    cbn [negb fst snd db]. right. right.
    exists url, c. repeat split; assumption.
  - rewrite create_fails by (left; rewrite Hu; apply andb_false_r).
    cbn [negb fst snd db].
    right. left. split; [reflexivity|]. split; [reflexivity|].
    exists url. repeat split; try assumption; [discriminate|now right].
Qed.


(** A 201 comes with a valid URL in the request; the code in it passes the
    format check and was free; the table has one more row, listed last, which
    holds that code, the sanitised URL (no whitespace around it, and
    [http://] or [https://] in front), the time of the request and no
    click. *)
Theorem shorten_url_created_row data now w code ou su :
  fst (shorten_url U data now w) = Created201 code ou su ->
  exists url,
    data = Some (JStr url)
    /\ is_valid_url U url = true
    /\ ou = sanitize_url url
    /\ su = lit "http://localhost:5000/" ++ code
    /\ validate_short_code U code = true
    /\ get_url_mapping (db w) code = None
    /\ get_all_urls (db (snd (shorten_url U data now w)))
       = get_all_urls (db w)
         ++ [{| short_code := code; original_url := ou;
                created_at := now; click_count := Integer 0 |}]
    /\ row_well_formed {| short_code := code; original_url := ou;
                          created_at := now; click_count := Integer 0 |}.
Proof.
  intros H.
  destruct (shorten_url_db data now w)
    as [[_ [Hno _]]|[[_ [Hr _]]
       |[url [c [Hd [Hv [Hr [Hlen [Hall [Hfree [_ Hdb]]]]]]]]]]].
  - now apply Hno in H.
  - rewrite Hr in H. discriminate H.
  - rewrite Hr in H. injection H as <- <- <-.
    exists url. rewrite Hdb. unfold get_all_urls. cbn [rows].
    repeat split; try assumption; try reflexivity.
    + now apply validate_generated.
    + now apply get_none_absent.
    + now apply sanitized_valid_url.
    + now apply sanitized_valid_url.
Qed.

End HandlersMore.

(* ================================================================= *)
(** ** app/main.py: redirects, statistics and histories of requests *)

Section Histories.

Variable U : unicode_db.

Lemma serve_app qs1 qs2 w :
  serve U (qs1 ++ qs2) w = serve U qs2 (serve U qs1 w).
Proof. apply fold_left_app. Qed.

Lemma get_url_stats_state c w : snd (get_url_stats U c w) = w.
Proof.
  unfold get_url_stats. destruct (validate_short_code U c); [|reflexivity].
  cbn [negb]. now destruct (get_url_mapping (db w) c).
Qed.

(** The statistics are read-only: a request for them anywhere in a history
    changes nothing of the state the history ends in, and what it reports
    of a code that is there is the row of that code. *)
Theorem stats_do_not_interfere qs1 c qs2 w :
  serve U (qs1 ++ GetStats c :: qs2) w = serve U (qs1 ++ qs2) w
  /\ (forall r,
        validate_short_code U c = true ->
        get_url_mapping (db w) c = Some r ->
        fst (get_url_stats U c w)
        = Stats200 c (original_url r) (click_count r) (created_at r)).
Proof.
  split.
  - rewrite !serve_app. cbn [serve fold_left handle].
    now rewrite get_url_stats_state.
  - intros r Hv Hget. unfold get_url_stats. rewrite Hv, Hget. cbn [negb fst].
    apply get_some_inv in Hget as [_ Hget].
    now rewrite (select_some_code _ _ _ Hget).
Qed.

(** A redirect of a well-formed code that is there answers 302 with the
    stored URL, whether or not the visit could be recorded. When no
    connection holds the write lock, the row of the code has one click more
    afterwards and is otherwise the same; when one does, the state is as it
    was. The lookup of every other code and the random generator are as
    before. A redirect of any other code is answered 500, because the
    [abort(404)] is raised inside the [try] block, and changes nothing. *)
Theorem redirect_effect c w :
  match get_url_mapping (db w) c with
  | Some r =>
      validate_short_code U c = true ->
      fst (redirect_to_original U c w) = Redirect302 (original_url r)
      /\ (write_locked (db w) = false ->
          get_url_mapping (db (snd (redirect_to_original U c w))) c
          = Some (set_click_count r (plus_one (click_count r))))
      /\ (write_locked (db w) = true ->
          snd (redirect_to_original U c w) = w)
      /\ (forall k, k <> c ->
            get_url_mapping (db (snd (redirect_to_original U c w))) k
            = get_url_mapping (db w) k)
      /\ random_state (snd (redirect_to_original U c w)) = random_state w
  | None => True
  end
  /\ (validate_short_code U c = false \/ get_url_mapping (db w) c = None ->
      redirect_to_original U c w
      = (Error500 (lit "Internal server error"), w)).
Proof.
  split.
  - destruct (get_url_mapping (db w) c) as [r|] eqn:Hget; [|exact I].
    intros Hv. rewrite (redirect_found U c w r Hv Hget). cbn [fst snd db].
    apply get_some_inv in Hget as [Hc Hget].
    split; [reflexivity|]. split; [|split; [|split; [|reflexivity]]].
    + intros Hl. rewrite increment_runs by assumption. cbn [snd].
      rewrite get_encodable by exact Hc. cbn [rows].
      unfold update_row. cbn [snd].
      rewrite select_update by reflexivity. rewrite Hget. cbn [option_map].
      apply select_some_code in Hget. unfold has_code.
      now rewrite Hget, str_eqb_refl.
    + intros Hl. rewrite increment_fails by now right. cbn [snd].
      now destruct w.
    + intros k Hk. destruct (write_locked (db w)) eqn:Hl.
      * now rewrite increment_fails by now right.
      * rewrite increment_runs by assumption. cbn [snd].
        unfold get_url_mapping. cbn [rows].
        destruct (encodable k); [|reflexivity].
        unfold update_row. cbn [snd]. rewrite select_update by reflexivity.
        destruct (select_row (rows (db w)) k) as [x|] eqn:Ek; [|reflexivity].
        cbn [option_map]. apply select_some_code in Ek. unfold has_code.
        rewrite Ek. apply str_eqb_neq in Hk. now rewrite Hk.
  - unfold redirect_to_original. intros [Hv|Hn].
    + now rewrite Hv.
    + rewrite Hn. now destruct (validate_short_code U c).
Qed.

(** *** The rows of the service *)




(** *** Redirects, counted *)

Lemma redirect_last c u now m t g :
  validate_short_code U c = true ->
  encodable c = true ->
  ~ In c (codes t) ->
  redirect_to_original U c
    {| db := {| rows := t ++ [{| short_code := c; original_url := u;
                                 created_at := now;
                                 click_count := count_after m |}];
                write_locked := false |};
       random_state := g |}
  = (Redirect302 u,
     {| db := {| rows := t ++ [{| short_code := c; original_url := u;
                                  created_at := now;
                                  click_count := count_after (S m) |}];
                 write_locked := false |};
        random_state := g |}).
Proof.
  intros Hv Hc Hfree.
  rewrite (redirect_found U c _
             {| short_code := c; original_url := u; created_at := now;
                click_count := count_after m |} Hv)
    by (cbn [db]; rewrite get_encodable by exact Hc; cbn [rows];
        now apply select_last).
  cbn [original_url db random_state].
  rewrite increment_runs by (exact Hc || reflexivity). cbn [rows].
  rewrite (update_last t
             {| short_code := c; original_url := u; created_at := now;
                click_count := count_after m |} c eq_refl Hfree).
  cbn [snd]. unfold set_click_count.
  cbn [short_code original_url created_at click_count].
  now rewrite plus_one_count_after.
Qed.

Lemma serve_redirects_last c u now n m t g :
  validate_short_code U c = true ->
  encodable c = true ->
  ~ In c (codes t) ->
  serve U (List.repeat (GetRedirect c) n)
    {| db := {| rows := t ++ [{| short_code := c; original_url := u;
                                 created_at := now;
                                 click_count := count_after m |}];
                write_locked := false |};
       random_state := g |}
  = {| db := {| rows := t ++ [{| short_code := c; original_url := u;
                                 created_at := now;
                                 click_count := count_after (m + n) |}];
                write_locked := false |};
       random_state := g |}.
Proof.
  intros Hv Hc Hfree. revert m. induction n as [|n IH]; intros m.
  - cbn. now rewrite Nat.add_0_r.
  - cbn [List.repeat serve fold_left handle].
    rewrite redirect_last by assumption. cbn [snd].
    change (fold_left (fun w q => snd (handle U q w))
              (List.repeat (GetRedirect c) n))
      with (serve U (List.repeat (GetRedirect c) n)).
    rewrite IH. now rewrite Nat.add_succ_r.
Qed.

(** After a 201 and [n] redirects of the new code, one more redirect still
    goes to the stored URL, and the statistics report the code, that URL, the
    time of the creation and [n] clicks (the REAL two to the 63 once [n] is
    past the largest INTEGER). *)
Theorem redirects_then_stats url now w code ou su w1 (n : nat) :
  shorten_url U (Some (JStr url)) now w = (Created201 code ou su, w1) ->
  fst (redirect_to_original U code
         (serve U (List.repeat (GetRedirect code) n) w1))
  = Redirect302 ou
  /\ fst (get_url_stats U code
            (serve U (List.repeat (GetRedirect code) n) w1))
     = Stats200 code ou (count_after n) now.
Proof.
  intros H. destruct w1 as [s1 g1].
  apply shorten_url_created in H
    as [_ [-> [_ [Hlen [Hall [Hfree [_ [_ Hdb]]]]]]]].
  cbn [db] in Hdb. subst s1.
  pose proof (validate_generated U code Hlen Hall) as Hv.
  pose proof (ascii_alnum_encodable code Hall) as Hc.
  change (Integer 0) with (count_after 0).
  rewrite serve_redirects_last by assumption. cbn [Nat.add].
  split.
  - now rewrite redirect_last by assumption.
  - unfold get_url_stats. rewrite Hv. cbn [negb db].
    rewrite get_encodable by exact Hc. cbn [rows].
    rewrite select_last; [reflexivity|reflexivity|exact Hfree].
Qed.

End Histories.

(* ================================================================= *)
(** ** The further theorems on concrete runs *)

Lemma sanitize_url_shape_witness : sanitize_url (lit "   ") = [].
Proof.
  apply (proj2 (proj2 (proj2 (sanitize_url_shape (lit "   "))))).
  reflexivity.
Defined.


Lemma shorten_url_created_row_witness :
  exists url,
    Some (JStr (lit "https://example.com")) = Some (JStr url)
    /\ is_valid_url ascii_db url = true
    /\ lit "https://example.com" = sanitize_url url
    /\ lit "http://localhost:5000/aaaaaa"
       = lit "http://localhost:5000/" ++ lit "aaaaaa"
    /\ validate_short_code ascii_db (lit "aaaaaa") = true
    /\ get_url_mapping (db fresh_world) (lit "aaaaaa") = None
    /\ get_all_urls
         (db (snd (shorten_url ascii_db
                     (Some (JStr (lit "https://example.com"))) 3
                     fresh_world)))
       = get_all_urls (db fresh_world)
         ++ [{| short_code := lit "aaaaaa";
                original_url := lit "https://example.com";
                created_at := 3; click_count := Integer 0 |}]
    /\ row_well_formed {| short_code := lit "aaaaaa";
                          original_url := lit "https://example.com";
                          created_at := 3; click_count := Integer 0 |}.
Proof.
  apply (shorten_url_created_row ascii_db
           (Some (JStr (lit "https://example.com"))) 3 fresh_world
           (lit "aaaaaa") (lit "https://example.com")
           (lit "http://localhost:5000/aaaaaa")).
  vm_compute. reflexivity.
Defined.

Lemma redirect_effect_witness :
  fst (redirect_to_original ascii_db (lit "aaaaaa") crowded_world)
  = Redirect302 (lit "https://example.com")
  /\ snd (redirect_to_original ascii_db (lit "aaaaaa") locked_world)
     = locked_world
  /\ redirect_to_original ascii_db (lit "zzzzzz") crowded_world
     = (Error500 (lit "Internal server error"), crowded_world).
Proof.
  split; [|split].
  - apply (proj1 (redirect_effect ascii_db (lit "aaaaaa") crowded_world)).
    reflexivity.
  - apply (proj1 (redirect_effect ascii_db (lit "aaaaaa") locked_world));
      reflexivity.
  - apply (proj2 (redirect_effect ascii_db (lit "zzzzzz") crowded_world)).
    right. reflexivity.
Defined.

Lemma redirects_then_stats_witness :
  fst (redirect_to_original ascii_db (lit "aaaaaa")
         (serve ascii_db (List.repeat (GetRedirect (lit "aaaaaa")) 2)
            (snd (shorten_url ascii_db
                    (Some (JStr (lit "https://example.com"))) 3
                    fresh_world))))
  = Redirect302 (lit "https://example.com")
  /\ fst (get_url_stats ascii_db (lit "aaaaaa")
            (serve ascii_db (List.repeat (GetRedirect (lit "aaaaaa")) 2)
               (snd (shorten_url ascii_db
                       (Some (JStr (lit "https://example.com"))) 3
                       fresh_world))))
     = Stats200 (lit "aaaaaa") (lit "https://example.com") (count_after 2) 3.
Proof.
  apply (redirects_then_stats ascii_db (lit "https://example.com") 3
           fresh_world (lit "aaaaaa") (lit "https://example.com")
           (lit "http://localhost:5000/aaaaaa")).
  vm_compute. reflexivity.
Defined.
(* ================================================================= *)
(** ** app/utils.py: the second test of [is_valid_url] *)

Section SecondTest.

Variable U : unicode_db.

Lemma ci_fold_letter_or_same c :
  is_ascii_lower (ci_fold c) = true \/ ci_fold c = c.
Proof.
  unfold ci_fold. destruct (is_ascii_upper c) eqn:Eu.
  - left. unfold is_ascii_upper, is_ascii_lower, in_range in *.
    apply andb_true_iff in Eu as [H1 H2]. apply Z.leb_le in H1, H2.
    apply andb_true_iff. split; apply Z.leb_le; lia.
  - destruct ((c =? 304) || (c =? 305)); [now left|].
    destruct (c =? 383); [now left|].
    destruct (c =? 8490); [now left|]. now right.
Qed.

(** A character that folds onto something else than a small letter is that
    character. *)
Lemma ci_fold_same c k :
  is_ascii_lower k = false -> ci_fold c = k -> c = k.
Proof.
  intros Hk E. destruct (ci_fold_letter_or_same c) as [H|H]; congruence.
Qed.

(** An ASCII character that folds onto a small letter is a letter. *)
Lemma ascii_letter c :
  (c <? 0x80) = true -> UrlPattern.letter c = true ->
  is_ascii_alpha c = true /\ c <> 58.
Proof.
  unfold UrlPattern.letter, ci_fold. intros Hc H.
  apply Z.ltb_lt in Hc.
  destruct (is_ascii_upper c) eqn:Eu.
  - unfold is_ascii_alpha. rewrite Eu. split; [reflexivity|].
    unfold is_ascii_upper, in_range in Eu.
    apply andb_true_iff in Eu as [H1 _]. apply Z.leb_le in H1. lia.
  - replace ((c =? 304) || (c =? 305)) with false in H
      by (symmetry; apply orb_false_iff; split; apply Z.eqb_neq; lia).
    replace (c =? 383) with false in H by (symmetry; apply Z.eqb_neq; lia).
    replace (c =? 8490) with false in H by (symmetry; apply Z.eqb_neq; lia).
    unfold is_ascii_alpha. rewrite H, orb_true_r. split; [reflexivity|].
    unfold is_ascii_lower, in_range in H.
    apply andb_true_iff in H as [H1 _]. apply Z.leb_le in H1. lia.
Qed.

Lemma split_at_prefix ch pre rest :
  ~ In ch pre -> split_at ch (pre ++ ch :: rest) = Some (pre, rest).
Proof.
  induction pre as [|x pre IH]; intros H; simpl.
  - now rewrite Z.eqb_refl.
  - replace (x =? ch) with false
      by (symmetry; apply Z.eqb_neq; intros ->; apply H; now left).
    rewrite IH; [reflexivity|]. intros Hin. apply H. now right.
Qed.

Lemma lits_ci_letters l s :
  forallb is_ascii_lower l = true ->
  in_lang (lits_ci l) s -> Forall (fun c => UrlPattern.letter c = true) s.
Proof.
  revert s. induction l as [|x l IH]; intros s Hl H; simpl in *.
  - apply in_lang_eps in H. subst. constructor.
  - apply andb_true_iff in Hl as [Hx Hl].
    apply in_lang_seq in H as [s1 [s2 [-> [H1 H2]]]].
    inversion H1; subst. apply Z.eqb_eq in H0. simpl.
    constructor; [|now apply IH].
    unfold UrlPattern.letter. rewrite H0.
    destruct (ci_fold_letter_or_same x) as [E|E]; [exact E|now rewrite E].
Qed.

(** The scheme of a word of the pattern: letters, then [://]. *)
Lemma in_lang_scheme_split s :
  in_lang UrlPattern.scheme s ->
  exists c pre,
    s = (c :: pre) ++ [58; 47; 47]
    /\ Forall (fun x => UrlPattern.letter x = true) (c :: pre).
Proof.
  intros H. unfold UrlPattern.scheme in H.
  apply in_lang_seq in H as [s1 [s2 [-> [H1 H2]]]].
  apply in_lang_seq in H2 as [s3 [s4 [-> [H3 H4]]]].
  assert (L1 : Forall (fun x => UrlPattern.letter x = true) s1)
    by (eapply lits_ci_letters; [|exact H1]; reflexivity).
  assert (L3 : Forall (fun x => UrlPattern.letter x = true) s3).
  { apply in_lang_opt in H3 as [H3| ->]; [|constructor].
    inversion H3; subst. apply Z.eqb_eq in H0.
    constructor; [|constructor]. unfold UrlPattern.letter. now rewrite H0. }
  apply in_lang_lits_ci in H1, H4.
  destruct s1 as [|c s1]; [discriminate|].
  destruct s4 as [|x [|y [|z [|? ?]]]]; try discriminate.
  injection H4 as Hx Hy Hz.
  apply ci_fold_same in Hx, Hy, Hz; try reflexivity. subst x y z.
  exists c, (s1 ++ s3). split.
  - simpl. now rewrite <- app_assoc.
  - change (c :: s1 ++ s3) with ((c :: s1) ++ s3). apply Forall_app. auto.
Qed.

Lemma take_netloc_app a b :
  Forall (fun c => netloc_special c = false) a ->
  take_netloc (a ++ b) = a ++ take_netloc b.
Proof.
  induction 1 as [|x a Hx _ IH]; simpl; [reflexivity|].
  unfold netloc_special in Hx. rewrite !orb_false_iff in Hx.
  destruct Hx as [[[[H1 H2] H3] _] _]. rewrite H1, H2, H3. simpl.
  now rewrite IH.
Qed.

Lemma in_lang_path s :
  in_lang UrlPattern.path s -> take_netloc s = [].
Proof.
  unfold UrlPattern.path. intros H.
  apply in_lang_alt in H as [H|H].
  - apply in_lang_opt in H as [H| ->]; [|reflexivity].
    inversion H; subst. simpl. now rewrite H1.
  - apply in_lang_seq in H as [s1 [s2 [-> [H1 _]]]].
    inversion H1; subst. unfold UrlPattern.slash_or_query in H0.
    simpl. apply orb_true_iff in H0 as [->| ->];
      [reflexivity|now rewrite orb_true_r].
Qed.

(** The classes of the host and of the port accept none of the special
    characters. *)
Lemma avoid_special (p : codepoint -> bool) :
  (forall c, p c = true ->
             UrlPattern.letter c = true \/ 48 <= c <= 57 \/ c = 45
             \/ c = 46 \/ c = 58 \/ 128 <= c) ->
  classes_avoid netloc_special (Cls p).
Proof.
  intros H c Hp. destruct (netloc_special c) eqn:E; [|reflexivity].
  exfalso. unfold netloc_special in E.
  rewrite !orb_true_iff, !Z.eqb_eq in E.
  destruct (H c Hp) as [Hl|Hr]; [|lia].
  unfold UrlPattern.letter in Hl.
  destruct (ci_fold_letter_or_same c) as [_|Hs].
  - unfold ci_fold, is_ascii_upper, in_range in Hl.
    replace ((65 <=? c) && (c <=? 90)) with false in Hl
      by (symmetry; apply andb_false_iff;
          destruct (Z.le_gt_cases 65 c);
          [right; apply Z.leb_gt; lia|left; apply Z.leb_gt; lia]).
    replace ((c =? 304) || (c =? 305)) with false in Hl
      by (symmetry; apply orb_false_iff; split; apply Z.eqb_neq; lia).
    replace (c =? 383) with false in Hl by (symmetry; apply Z.eqb_neq; lia).
    replace (c =? 8490) with false in Hl by (symmetry; apply Z.eqb_neq; lia).
    unfold is_ascii_lower, in_range in Hl.
    apply andb_true_iff in Hl as [H1 H2]. apply Z.leb_le in H1, H2. lia.
  - rewrite Hs in Hl. unfold is_ascii_lower, in_range in Hl.
    apply andb_true_iff in Hl as [H1 H2]. apply Z.leb_le in H1, H2. lia.
Qed.

Lemma digit_avoid_special :
  classes_avoid netloc_special (UrlPattern.digit U).
Proof.
  apply avoid_special. intros c Hp. unfold isdecimal_char in Hp.
  destruct (c <? 128) eqn:E; [|apply Z.ltb_ge in E; lia].
  unfold is_ascii_digit, in_range in Hp.
  apply andb_true_iff in Hp as [H1 H2]. apply Z.leb_le in H1, H2. lia.
Qed.

Lemma letter_digit_cases c :
  UrlPattern.letter_digit c = true ->
  UrlPattern.letter c = true \/ 48 <= c <= 57.
Proof.
  unfold UrlPattern.letter_digit. intros H.
  apply orb_true_iff in H as [H|H]; [now left|right].
  unfold is_ascii_digit, in_range in H.
  apply andb_true_iff in H as [H1 H2]. apply Z.leb_le in H1, H2. lia.
Qed.

Lemma lits_ci_avoid_special l :
  forallb is_ascii_lower l = true ->
  classes_avoid netloc_special (lits_ci l).
Proof.
  induction l as [|x l IH]; simpl; intros H; [exact I|].
  apply andb_true_iff in H as [Hx Hl]. split; [|now apply IH].
  apply avoid_special. intros c Hc. left. apply Z.eqb_eq in Hc.
  unfold UrlPattern.letter. rewrite Hc.
  destruct (ci_fold_letter_or_same x) as [E|E]; [exact E|now rewrite E].
Qed.

Lemma host_port_avoid_special :
  classes_avoid netloc_special
    (Seq (Alt (UrlPattern.domain) (Alt UrlPattern.localhost (UrlPattern.ip U)))
         (UrlPattern.port U)).
Proof.
  assert (Hdot : classes_avoid netloc_special UrlPattern.dot)
    by (apply avoid_special; intros c Hc; apply Z.eqb_eq in Hc; lia).
  assert (Hd3 : classes_avoid netloc_special (rep 1 3 (UrlPattern.digit U)))
    by apply classes_avoid_rep, digit_avoid_special.
  assert (Hld : classes_avoid netloc_special (Cls UrlPattern.letter_digit)).
  { apply avoid_special. intros c Hc.
    apply letter_digit_cases in Hc as [H|H]; auto. }
  split; [split; [|split]|].
  - split.
    + apply classes_avoid_plus. split; [exact Hld|].
      split; [|exact Hdot]. apply classes_avoid_opt. split; [|exact Hld].
      apply classes_avoid_rep, avoid_special. intros c Hc.
      unfold UrlPattern.letter_digit_dash in Hc.
      apply orb_true_iff in Hc as [Hc|Hc].
      * apply letter_digit_cases in Hc as [H|H]; auto.
      * apply Z.eqb_eq in Hc. auto.
    + split; [|now apply classes_avoid_opt].
      apply classes_avoid_rep, avoid_special. auto.
  - apply lits_ci_avoid_special. reflexivity.
  - split; [exact Hd3|]. split; [exact Hdot|].
    split; [exact Hd3|]. split; [exact Hdot|].
    split; [exact Hd3|]. split; [exact Hdot|exact Hd3].
  - apply classes_avoid_opt. split; [|apply classes_avoid_plus, digit_avoid_special].
    apply avoid_special. intros c Hc. apply Z.eqb_eq in Hc. lia.
Qed.

Lemma host_not_empty s :
  in_lang (Alt UrlPattern.domain (Alt UrlPattern.localhost (UrlPattern.ip U))) s ->
  s <> [].
Proof.
  intros H ->. apply nullable_in_lang in H. discriminate H.
Qed.

Lemma filter_safe s :
  Forall (fun c => ascii_space c = false) s ->
  List.filter (fun c => negb (unsafe_url_byte c)) s = s.
Proof.
  induction 1 as [|x s Hx _ IH]; simpl; [reflexivity|].
  assert (E : unsafe_url_byte x = false).
  { destruct (unsafe_url_byte x) eqn:E; [|reflexivity].
    unfold unsafe_url_byte in E. rewrite !orb_true_iff, !Z.eqb_eq in E.
    destruct E as [[->| ->]| ->]; discriminate Hx. }
  rewrite E. simpl. now rewrite IH.
Qed.

Lemma take_netloc_sub P s :
  Forall P s -> Forall P (take_netloc s).
Proof.
  induction 1 as [|x s Hx _ IH]; simpl; [constructor|].
  destruct ((x =? 47) || (x =? 63) || (x =? 35)); [constructor|].
  now constructor.
Qed.

(** [urlparse] on an ASCII word of the pattern finds a scheme and a network
    location. *)
Lemma urlparse_word body :
  forallb (fun c => c <? 0x80) body = true ->
  in_lang (UrlPattern.url_pattern U) body ->
  exists scheme netloc,
    urlparse U body = Some (scheme, netloc)
    /\ scheme <> [] /\ netloc <> [].
Proof.
  intros Hascii Hin.
  pose proof (proj2 (in_lang_url_pattern U body Hin)) as Hnosp.
  unfold UrlPattern.url_pattern in Hin.
  apply in_lang_seq in Hin as [s1 [s2 [-> [H1 H2]]]].
  apply in_lang_seq in H2 as [h [s3 [-> [Hh H3]]]].
  apply in_lang_seq in H3 as [po [pa [-> [Hpo Hpa]]]].
  apply in_lang_scheme_split in H1 as [c [pre [-> Hlet]]].
  rewrite forallb_forall in Hascii.
  assert (Hpre : forall x, In x (c :: pre) ->
                           is_ascii_alpha x = true /\ x <> 58).
  { rewrite Forall_forall in Hlet. intros x Hx. apply ascii_letter.
    - apply Hascii. apply in_or_app. left. apply in_or_app. now left.
    - now apply Hlet. }
  assert (Hhp : Forall (fun x => netloc_special x = false) (h ++ po)).
  { eapply in_lang_avoid; [apply host_port_avoid_special|].
    now constructor. }
  pose proof (host_not_empty h Hh) as Hne.
  unfold urlparse. cbv zeta.
  assert (Hc0 : c0_control_or_space c = false).
  { destruct (Hpre c (or_introl eq_refl)) as [Ha _].
    unfold is_ascii_alpha, is_ascii_upper, is_ascii_lower, in_range in Ha.
    unfold c0_control_or_space, in_range.
    rewrite orb_true_iff, !andb_true_iff, !Z.leb_le in Ha.
    apply andb_false_iff. right. apply Z.leb_gt. lia. }
  change (((c :: pre) ++ [58; 47; 47]) ++ h ++ po ++ pa)
    with (c :: (pre ++ [58; 47; 47]) ++ h ++ po ++ pa) at 1.
  cbn [lstrip_c0]. rewrite Hc0.
  change (c :: (pre ++ [58; 47; 47]) ++ h ++ po ++ pa)
    with (((c :: pre) ++ [58; 47; 47]) ++ h ++ po ++ pa).
  rewrite filter_safe by exact Hnosp.
  replace (((c :: pre) ++ [58; 47; 47]) ++ h ++ po ++ pa)
    with ((c :: pre) ++ 58 :: 47 :: 47 :: (h ++ po) ++ pa)
    by (rewrite <- !app_assoc; reflexivity).
  rewrite split_at_prefix
    by (intros Hin; destruct (Hpre 58 Hin) as [_ Hn]; now apply Hn).
  assert (Halpha : is_ascii_alpha c && forallb scheme_char (c :: pre) = true).
  { apply andb_true_iff. split; [apply (Hpre c); now left|].
    apply forallb_forall. intros x Hx. unfold scheme_char, is_ascii_alnum.
    destruct (Hpre x Hx) as [-> _]. reflexivity. }
  unfold str, codepoint in *. rewrite Halpha.
  rewrite take_netloc_app by exact Hhp.
  rewrite (in_lang_path pa Hpa), app_nil_r.
  assert (Hasc : is_ascii_str (h ++ po) = true).
  { apply forallb_forall. intros x Hx. apply Hascii.
    apply in_or_app. right. rewrite app_assoc. apply in_or_app. now left. }
  assert (Hbr : has_bracket (h ++ po) = false).
  { unfold has_bracket. destruct (existsb _ (h ++ po)) eqn:E; [|reflexivity].
    apply existsb_exists in E as [x [Hx Hb]].
    rewrite Forall_forall in Hhp. apply Hhp in Hx.
    unfold netloc_special in Hx. rewrite !orb_false_iff in Hx.
    destruct Hx as [[[_ _] H91] H93].
    apply orb_true_iff in Hb as [Hb|Hb]; congruence. }
  unfold str, codepoint in *. rewrite Hasc, Hbr. cbn [negb orb andb].
  eexists _, _. split; [reflexivity|]. split; [discriminate|].
  destruct h; [contradiction|discriminate].
Qed.

(** On a string of ASCII characters the second test of [is_valid_url], the
    one on the result of [urlparse], never fails: the URL is valid exactly
    when the pattern matches it. *)
Theorem is_valid_url_ascii (url : str) :
  forallb (fun c => c <? 0x80) url = true ->
  is_valid_url U url = match_anchored (UrlPattern.url_pattern U) url.
Proof.
  intros Hascii. unfold is_valid_url.
  destruct (match_anchored (UrlPattern.url_pattern U) url) eqn:Em;
    [|now destruct (is_empty url)].
  destruct (match_anchored_inv _ _ Em) as [body [Hb Hm]].
  apply fullmatch_in_lang in Hm.
  assert (Hbody : forallb (fun c => c <? 0x80) body = true).
  { destruct Hb as [->| ->]; [exact Hascii|].
    rewrite forallb_app in Hascii. now apply andb_true_iff in Hascii. }
  destruct (urlparse_word body Hbody Hm) as [sc [nl [Hp [Hs Hn]]]].
  assert (Hparse : urlparse U url = Some (sc, nl)).
  { destruct Hb as [->| ->]; [exact Hp|now rewrite urlparse_newline]. }
  assert (Hne : is_empty url = false).
  { destruct (proj1 (in_lang_url_pattern U body Hm)) as [s1 [s2 [-> Hs1]]].
    destruct s1 as [|c s1]; [destruct Hs1; discriminate|].
    destruct Hb as [->| ->]; reflexivity. }
  rewrite Hne, Hparse. cbn [negb].
  destruct sc; [contradiction|]. destruct nl; [contradiction|]. reflexivity.
Qed.

(** *** The scheme of a valid URL *)

Lemma letter_not_special c :
  UrlPattern.letter c = true ->
  c <> 58 /\ c <> 47 /\ c0_control_or_space c = false.
Proof.
  unfold UrlPattern.letter. intros H.
  assert (Hr : 65 <= c).
  { destruct (ci_fold_letter_or_same c) as [_|Hs].
    - unfold ci_fold, is_ascii_upper, in_range in H.
      destruct ((65 <=? c) && (c <=? 90)) eqn:Eu.
      + apply andb_true_iff in Eu as [H1 _]. now apply Z.leb_le in H1.
      + destruct ((c =? 304) || (c =? 305)) eqn:E1;
          [rewrite orb_true_iff, !Z.eqb_eq in E1; lia|].
        destruct (c =? 383) eqn:E2; [apply Z.eqb_eq in E2; lia|].
        destruct (c =? 8490) eqn:E3; [apply Z.eqb_eq in E3; lia|].
        unfold is_ascii_lower, in_range in H.
        apply andb_true_iff in H as [H1 _]. apply Z.leb_le in H1. lia.
    - rewrite Hs in H. unfold is_ascii_lower, in_range in H.
      apply andb_true_iff in H as [H1 _]. apply Z.leb_le in H1. lia. }
  split; [lia|]. split; [lia|].
  unfold c0_control_or_space, in_range.
  apply andb_false_iff. right. apply Z.leb_gt. lia.
Qed.

(** On the characters [urlparse] admits in a scheme, the case folding of
    the pattern is [str.lower]. *)
Lemma scheme_char_fold x :
  scheme_char x = true ->
  (if is_ascii_upper x then x + 32 else x) = ci_fold x.
Proof.
  intros H. unfold ci_fold. destruct (is_ascii_upper x); [reflexivity|].
  assert (Hx : x < 128).
  { unfold scheme_char, is_ascii_alnum, is_ascii_alpha, is_ascii_upper,
      is_ascii_lower, is_ascii_digit, in_range in H.
    rewrite !orb_true_iff, !andb_true_iff, !Z.leb_le, !Z.eqb_eq in H. lia. }
  replace ((x =? 304) || (x =? 305)) with false
    by (symmetry; apply orb_false_iff; split; apply Z.eqb_neq; lia).
  replace (x =? 383) with false by (symmetry; apply Z.eqb_neq; lia).
  replace (x =? 8490) with false by (symmetry; apply Z.eqb_neq; lia).
  reflexivity.
Qed.

(** [urlparse] on a string without ASCII whitespace that begins with
    letters and a colon: when one of the letters is not a character of a
    scheme, it finds no scheme. *)
Lemma urlparse_no_scheme c pre post :
  Forall (fun x => UrlPattern.letter x = true) (c :: pre) ->
  Forall (fun x => ascii_space x = false) ((c :: pre) ++ 58 :: post) ->
  is_ascii_alpha c && forallb scheme_char (c :: pre) = false ->
  urlparse U ((c :: pre) ++ 58 :: post) = Some ([], []).
Proof.
  intros Hlet Hnosp Hbad.
  assert (Hc : c <> 47 /\ c0_control_or_space c = false).
  { inversion Hlet; subst. now apply letter_not_special. }
  destruct Hc as [Hc47 Hc0].
  assert (Hn58 : ~ In 58 (c :: pre)).
  { intros Hin. rewrite Forall_forall in Hlet. apply Hlet in Hin.
    now apply letter_not_special in Hin. }
  unfold urlparse. cbv zeta.
  change ((c :: pre) ++ 58 :: post) with (c :: pre ++ 58 :: post).
  cbn [lstrip_c0]. rewrite Hc0.
  change (c :: pre ++ 58 :: post) with ((c :: pre) ++ 58 :: post).
  rewrite filter_safe by exact Hnosp.
  rewrite split_at_prefix by exact Hn58.
  unfold str, codepoint in *. rewrite Hbad.
  change ((c :: pre) ++ 58 :: post) with (c :: pre ++ 58 :: post).
  destruct c as [|p|p]; try reflexivity.
  repeat (destruct p as [p|p|]; try reflexivity). congruence.
Qed.

(** Every URL [is_valid_url] accepts begins with [http://] or [https://], in
    small or capital ASCII letters, and has no ASCII whitespace in it,
    except that one newline may follow it. The pattern alone would admit
    the long s (U+017F) in the scheme; the test on the result of
    [urlparse] does not. *)
Theorem valid_url_has_scheme_and_no_space (url : str) :
  is_valid_url U url = true ->
  exists body,
    (url = body \/ url = body ++ [10])
    /\ has_ascii_http_scheme body
    /\ Forall (fun c => ascii_space c = false) body.
Proof.
  intros Hv.
  destruct (match_anchored_inv _ _ (is_valid_url_matches U url Hv))
    as [body [Hb Hm]].
  apply fullmatch_in_lang in Hm.
  pose proof (proj2 (in_lang_url_pattern U body Hm)) as Hnosp.
  exists body. split; [exact Hb|]. split; [|exact Hnosp].
  assert (Hparse : exists sc nl,
             urlparse U body = Some (sc, nl) /\ sc <> []).
  { assert (E : urlparse U url = urlparse U body)
      by (destruct Hb as [->| ->]; [reflexivity|apply urlparse_newline]).
    rewrite <- E. unfold is_valid_url in Hv.
    destruct (is_empty url); [discriminate|].
    destruct (match_anchored (UrlPattern.url_pattern U) url);
      [|discriminate].
    cbn [negb] in Hv.
    destruct (urlparse U url) as [[sc nl]|]; [|discriminate].
    exists sc, nl. split; [reflexivity|].
    intros ->. discriminate Hv. }
  destruct Hparse as [sc [nl [Hparse Hsc]]].
  unfold UrlPattern.url_pattern in Hm.
  apply in_lang_seq in Hm as [s1 [s2 [-> [H1 _]]]].
  pose proof (in_lang_scheme s1 H1) as Hfold.
  apply in_lang_scheme_split in H1 as [c [pre [-> Hlet]]].
  exists ((c :: pre) ++ [58; 47; 47]), s2. split; [reflexivity|].
  assert (Hsch : forallb scheme_char (c :: pre) = true).
  { destruct (is_ascii_alpha c && forallb scheme_char (c :: pre)) eqn:E;
      [now apply andb_true_iff in E|].
    exfalso. apply Hsc.
    assert (Eq : ((c :: pre) ++ [58; 47; 47]) ++ s2
                 = (c :: pre) ++ 58 :: 47 :: 47 :: s2)
      by (rewrite <- app_assoc; reflexivity).
    unfold str, codepoint in *. rewrite Eq in Hparse, Hnosp.
    pose proof (urlparse_no_scheme c pre _ Hlet Hnosp E) as Hn.
    unfold str, codepoint in *. rewrite Hn in Hparse. congruence. }
  assert (Hlow : ascii_lower ((c :: pre) ++ [58; 47; 47])
                 = List.map ci_fold ((c :: pre) ++ [58; 47; 47])).
  { unfold ascii_lower. rewrite !map_app. f_equal.
    apply map_ext_in. intros x Hx. apply scheme_char_fold.
    rewrite forallb_forall in Hsch. now apply Hsch. }
  rewrite Hlow. exact Hfold.
Qed.

(** Outside ASCII the second test does reject: with the long s (U+017F) in
    the scheme the pattern matches, as it ignores case, and [urlparse] finds
    no scheme. *)
Lemma is_valid_url_long_s :
  match_anchored (UrlPattern.url_pattern U)
    (lit "http" ++ [0x17F] ++ lit "://example.com") = true
  /\ is_valid_url U (lit "http" ++ [0x17F] ++ lit "://example.com") = false.
Proof. split; vm_compute; reflexivity. Qed.

End SecondTest.

Lemma stats_do_not_interfere_witness :
  fst (get_url_stats ascii_db (lit "aaaaaa") crowded_world)
  = Stats200 (lit "aaaaaa") (lit "https://example.com") (Integer 0) 0.
Proof.
  apply (proj2 (stats_do_not_interfere ascii_db [] (lit "aaaaaa") []
                  crowded_world)
           {| short_code := lit "aaaaaa";
              original_url := lit "https://example.com";
              created_at := 0; click_count := Integer 0 |});
    reflexivity.
Defined.

Lemma is_valid_url_ascii_witness :
  is_valid_url ascii_db (lit "http://localhost:3000")
  = match_anchored (UrlPattern.url_pattern ascii_db)
      (lit "http://localhost:3000").
Proof.
  exact (is_valid_url_ascii ascii_db (lit "http://localhost:3000") eq_refl).
Defined.

Lemma valid_url_has_scheme_and_no_space_witness :
  exists body,
    (lit "HTTPS://www.example.com" = body
     \/ lit "HTTPS://www.example.com" = body ++ [10])
    /\ has_ascii_http_scheme body
    /\ Forall (fun c => ascii_space c = false) body.
Proof.
  exact (valid_url_has_scheme_and_no_space ascii_db
           (lit "HTTPS://www.example.com") eq_refl).
Defined.
